(** * Archy crawler service: the cleaning and scraping pipeline of
      [src/crawler/main.py]

    The development embeds [clean_terraform_docs] and [scrape_url] and proves
    the properties of the design document about them.

    Python strings are sequences of Unicode code points; [len] counts code
    points.  A [str] is therefore a list of code points, each one a number. *)

From Stdlib Require Import Strings.String Strings.Ascii Numbers.DecimalString.
From Stdlib Require Import List NArith Arith Lia Bool.
From Stdlib Require DecimalNat.
Import ListNotations.

Set Implicit Arguments.

(** ** Python's [str] and the string operations the program uses *)

Module PyStr.

Definition char := N.
Definition str := list char.

Definition NL : char := 10%N.
Definition BACKSLASH : char := 92%N.
Definition LETTER_n : char := 110%N.

(** The code points of an ASCII text, as written. *)
Definition codes (x : String.string) : str :=
  map Ascii.N_of_ascii (String.list_ascii_of_string x).

(** Python's reading of a literal: the two characters backslash, [n] stand
    for one newline.  No literal of the program holds another escape. *)
Fixpoint unescape (s : str) : str :=
  match s with
  | [] => []
  | c :: s' =>
      match s' with
      | d :: s'' =>
          if (N.eqb c BACKSLASH && N.eqb d LETTER_n)%bool
          then NL :: match unescape s' with _ :: r => r | [] => [] end
          else c :: unescape s'
      | [] => [c]
      end
  end.

Definition lit (x : String.string) : str := unescape (codes x).
Arguments lit x%_string.

(** [s.startswith(pre)] *)
Fixpoint startswith (pre s : str) : bool :=
  match pre, s with
  | [], _ => true
  | _ :: _, [] => false
  | p :: pre', c :: s' => N.eqb p c && startswith pre' s'
  end.

(** [pat in s] *)
Fixpoint contains (pat s : str) : bool :=
  startswith pat s ||
  match s with
  | [] => false
  | _ :: s' => contains pat s'
  end.

(** [s.count(pat)] for a non-empty [pat]: occurrences are counted from the
    left and do not overlap; [skip] is the number of characters still covered
    by the occurrence counted last. *)
Fixpoint count_from (pat : str) (skip : nat) (s : str) : nat :=
  match s with
  | [] => 0
  | _ :: s' =>
      match skip with
      | S k => count_from pat k s'
      | O => if startswith pat s
             then S (count_from pat (length pat - 1) s')
             else count_from pat 0 s'
      end
  end.

Definition count (pat s : str) : nat := count_from pat 0 s.

(** [s.split(sep)] for a one-character separator: never the empty list. *)
Fixpoint split (sep : char) (s : str) : list str :=
  match s with
  | [] => [[]]
  | c :: s' =>
      if N.eqb c sep then [] :: split sep s'
      else match split sep s' with
           | l :: ls => (c :: l) :: ls
           | [] => [[c]]
           end
  end.

(** [sep.join(ls)] *)
Fixpoint join (sep : str) (ls : list str) : str :=
  match ls with
  | [] => []
  | l :: ls' =>
      match ls' with
      | [] => l
      | _ :: _ => l ++ sep ++ join sep ls'
      end
  end.

(** [c.isspace()]: the white space of Unicode as CPython decides it. *)
Definition isspace (c : char) : bool :=
  ((9 <=? c) && (c <=? 13) || (28 <=? c) && (c <=? 32) ||
   (c =? 133) || (c =? 160) || (c =? 5760) ||
   (8192 <=? c) && (c <=? 8202) || (c =? 8232) || (c =? 8233) ||
   (c =? 8239) || (c =? 8287) || (c =? 12288))%N.

Fixpoint lstrip (s : str) : str :=
  match s with
  | [] => []
  | c :: s' => if isspace c then lstrip s' else s
  end.

Definition rstrip (s : str) : str := rev (lstrip (rev s)).

(** [s.strip()] *)
Definition strip (s : str) : str := rstrip (lstrip s).

(** [re.sub(r"\n{3,}", "\n\n", s)]: the pattern is greedy, so a match is a
    whole run of three or more newlines; [run] counts the newlines of the run
    being read. *)
Definition emit_run (run : nat) : str :=
  if 3 <=? run then [NL; NL] else repeat NL run.

Fixpoint sub_newlines (run : nat) (s : str) : str :=
  match s with
  | [] => emit_run run
  | c :: s' =>
      if N.eqb c NL then sub_newlines (S run) s'
      else emit_run run ++ c :: sub_newlines 0 s'
  end.

Definition re_sub_newlines (s : str) : str := sub_newlines 0 s.

(** [str(n)] for a length. *)
Definition str_of_nat (n : nat) : str :=
  codes (DecimalString.NilEmpty.string_of_uint (Nat.to_uint n)).

End PyStr.

Import PyStr.

(** ** [clean_terraform_docs] *)

(** The condition of the first loop. *)
Definition start_marker (line : str) : bool :=
  startswith (lit "# azurerm_") line ||
  startswith (lit "# data.azurerm_") line ||
  contains (lit "## Example Usage") line ||
  contains (lit "Example Usage") line.

(** [for i, x in enumerate(l): if p(x): ... i ...; break] *)
Fixpoint first_index (A : Type) (p : A -> bool) (l : list A) : option nat :=
  match l with
  | [] => None
  | x :: l' => if p x then Some 0
               else match first_index p l' with
                    | Some i => Some (S i)
                    | None => None
                    end
  end.

Definition doc_start (lines : list str) : nat :=
  match first_index start_marker lines with
  | Some i => i
  | None => 0
  end.

(** The second pattern is the two code points U+00C2, U+00A9 followed by
    a space and "20", as the source file spells it. *)
Definition footer_patterns : list str :=
  [ lit "HashiCorp"; [194%N; 169%N] ++ lit " 20"; lit "Privacy";
    lit "Terms of Service" ].

Definition footer_marker (line : str) : bool :=
  existsb (fun pattern => contains pattern line) footer_patterns.

(** [range(start, stop, -1)]: start, start-1, ..., stop+1. *)
Definition range_down (start stop : nat) : list nat :=
  rev (seq (S stop) (start - stop)).

Definition doc_end (lines : list str) (ds : nat) : nat :=
  match find (fun i => footer_marker (nth i lines []))
             (range_down (length lines - 1) ds) with
  | Some i => i
  | None => length lines
  end.

(** [l[a:b]] for [a <= len(l)] *)
Definition slice (A : Type) (l : list A) (a b : nat) : list A :=
  firstn (b - a) (skipn a l).

Definition skip_patterns : list str :=
  [ lit "Browse"; lit "Sign-in"; lit "Search all resources";
    lit "Version History"; lit "[Published"; lit "View all versions" ].

(** The two conditions of the filtering loop, each followed by [continue]. *)
Definition nav_noise (line : str) : bool :=
  existsb (fun pattern => contains pattern line) skip_patterns &&
  (length line <? 150).

Definition link_noise (line : str) : bool :=
  5 <? count (lit "](") line.

Definition keep (line : str) : bool :=
  negb (nav_noise line) && negb (link_noise line).

Definition doc_section (lines : list str) : list str :=
  let ds := doc_start lines in
  slice lines ds (doc_end lines ds).

(** The filtering loop: [continue] on a noise line, [append] otherwise. *)
Fixpoint filter_loop (section cleaned_lines : list str) : list str :=
  match section with
  | [] => cleaned_lines
  | line :: rest =>
      if nav_noise line then filter_loop rest cleaned_lines
      else if link_noise line then filter_loop rest cleaned_lines
      else filter_loop rest (cleaned_lines ++ [line])
  end.

Definition cleaned_lines (markdown : str) : list str :=
  filter_loop (doc_section (split NL markdown)) [].

Definition normalize (markdown : str) : str :=
  strip (re_sub_newlines markdown).

Definition clean_terraform_docs (markdown : str) : str :=
  normalize (join [NL] (cleaned_lines markdown)).

(** ** [scrape_url] *)

Record ScrapeRequest := { url : str }.

Record ScrapeResponse := {
  markdown : str;
  success : bool;
  error : option str
}.

(** What the program reads of the crawler's result: [result.success],
    [result.error_message] and [result.markdown_v2.raw_markdown];
    [markdown_v2] may be [None]. *)
Record CrawlResult := {
  result_success : bool;
  error_message : option str;
  markdown_v2 : option str
}.

(** One use of [crawler.arun] on a URL, inside a session that is entered
    and left without an exception: it raises an [Exception] that is not an
    [HTTPException] ([message] is its [str]; the crawler has no
    [HTTPException] of its own), or it returns a result.  What else the
    [try] block can meet is in [session] below. *)
Inductive crawl :=
| CrawlRaises (message : str)
| CrawlReturns (result : CrawlResult).

(** What is raised inside the [try] block. *)
Inductive raised :=
| HTTPException (status_code : nat) (detail : str)
| Exception (message : str).

(** What a call of [scrape_url] ends with when it returns or raises an
    [HTTPException]; [answer] below adds the exception that no handler
    catches. *)
Inductive outcome :=
| Returns (response : ScrapeResponse)
| Raises (status_code : nat) (detail : str).

(** An f-string field: [None] is printed as its name. *)
Definition fmt (o : option str) : str :=
  match o with
  | Some s => s
  | None => lit "None"
  end.

Definition full_url (request : ScrapeRequest) : str :=
  if startswith (lit "/") (url request)
  then lit "https://registry.terraform.io" ++ url request
  else url request.

Definition too_short_detail (n : nat) : str :=
  lit "Extracted content too short (" ++ str_of_nat n ++
  lit " chars). Page may not have loaded properly.".

Section Scrape.

(** The crawler: [arun k u] is what its call on [u] does when [k] calls were
    made before it in the same request. *)
Variable arun : nat -> str -> crawl.

(** The body of the [try] block from the call of [crawler.arun] on, with the
    URLs the crawler was called on; [scrape_session] below adds the steps
    before and after it. *)
Definition try_block (request : ScrapeRequest)
  : (raised + ScrapeResponse) * list str :=
  let calls := [full_url request] in
  match arun 0 (full_url request) with
  | CrawlRaises message => (inl (Exception message), calls)
  | CrawlReturns result =>
      if negb (result_success result) then
        (inl (HTTPException 500
                (lit "Crawl failed: " ++ fmt (error_message result))), calls)
      else
        match markdown_v2 result with
        | None =>
            (inl (Exception
                    (lit "'NoneType' object has no attribute 'raw_markdown'")),
             calls)
        | Some raw_markdown =>
            let markdown := clean_terraform_docs raw_markdown in
            if length markdown <? 200 then
              (inl (HTTPException 500 (too_short_detail (length markdown))),
               calls)
            else
              (inr {| markdown := markdown; success := true; error := None |},
               calls)
        end
  end.

(** [except HTTPException: raise] and [except Exception as e: return ...] *)
Definition scrape_url (request : ScrapeRequest) : outcome * list str :=
  match try_block request with
  | (inl (HTTPException status_code detail), calls) =>
      (Raises status_code detail, calls)
  | (inl (Exception e), calls) =>
      (Returns {| markdown := []; success := false; error := Some e |}, calls)
  | (inr response, calls) => (Returns response, calls)
  end.

End Scrape.

(** ** Concrete inputs used below *)

(** A crawler whose render fails with the message "timeout". *)
Definition arun_timeout (k : nat) (u : str) : crawl :=
  CrawlReturns {| result_success := false;
                  error_message := Some (lit "timeout");
                  markdown_v2 := None |}.


(** A crawler that raises. *)
Definition arun_broken (k : nat) (u : str) : crawl :=
  CrawlRaises (lit "connection refused").

(** A crawler that renders a page of [n] letters. *)
Definition arun_letters (n : nat) (k : nat) (u : str) : crawl :=
  CrawlReturns {| result_success := true;
                  error_message := None;
                  markdown_v2 := Some (repeat 120%N n) |}.

Definition request_path : ScrapeRequest :=
  {| url := lit "/providers/hashicorp/azurerm/latest/docs" |}.

(** The first end-to-end scenario of the design document. *)
Definition scenario_one : str :=
  lit "# azurerm_foo\n\nsome docs\n\nHashiCorp\nPrivacy\n".

(** Its lines above the last line that holds a footer marker. *)
Definition scenario_one_above : list str :=
  [lit "# azurerm_foo"; []; lit "some docs"; []; lit "HashiCorp"].

(** A page whose first line mentions "Example Usage" before the heading. *)
Definition early_example_usage : str :=
  lit "Docs: Example Usage\n# azurerm_foo\nbody".

(** ** The conditions as the design document words them *)

(** A top-level heading with one of the two recognized prefixes. *)
Definition heading (line : str) : bool :=
  startswith (lit "# azurerm_") line ||
  startswith (lit "# data.azurerm_") line.

(** The start boundary matches a heading or contains "Example Usage". *)
Definition start_boundary_line (line : str) : bool :=
  heading line || contains (lit "Example Usage") line.

(** A run of three newlines somewhere in the text. *)
Definition triple_newline (s : str) : bool := contains [NL; NL; NL] s.

(** White space at the two ends of a text. *)
Definition leading_space (s : str) : bool :=
  match s with
  | c :: _ => isspace c
  | [] => false
  end.

Definition trailing_space (s : str) : bool := leading_space (rev s).

(** The characters of some lines, one more per line for its newline. *)
Definition weight (ls : list str) : nat :=
  list_sum (map (fun l => S (length l)) ls).

(** A small page that needs trimming only. *)
Definition tidy_page : str := lit "  hello\n\nworld \n".

(** A newline at the two ends of a text. *)
Definition starts_with_newline (s : str) : bool := startswith [NL] s.
Definition ends_with_newline (s : str) : bool := startswith [NL] (rev s).

(** A line that no boundary takes for a marker and the filter keeps. *)
Definition plain_line (l : str) : bool :=
  negb (start_marker l) && negb (footer_marker l) && keep l.

(** Markdown links of a line: a closing bracket next to an opening
    parenthesis. *)
Definition RBRACKET : char := 93%N.
Definition LPAREN : char := 40%N.

Fixpoint link_pairs (s : str) : nat :=
  match s with
  | [] => 0
  | c :: s' =>
      (if N.eqb c RBRACKET && startswith [LPAREN] s' then 1 else 0)
      + link_pairs s'
  end.

(** A line of 162 characters with a navigation phrase and six links. *)
Definition long_navigation_line : str :=
  lit "Browse [a](b)[a](b)[a](b)[a](b)[a](b)[a](b)" ++ repeat 120%N 119.

(** A page with a short navigation line, and a long line with the same
    phrase and no link. *)
Definition short_navigation_page : str :=
  lit "# azurerm_foo\nBrowse modules\ntext".

Definition long_plain_navigation_line : str :=
  lit "Browse " ++ repeat 120%N 150.

(** The answers of [scrape_url] to a crawler that raises and to one that
    renders 300 letters. *)
Definition response_broken : ScrapeResponse :=
  {| markdown := []; success := false;
     error := Some (lit "connection refused") |}.

Definition response_letters : ScrapeResponse :=
  {| markdown := repeat 120%N 300; success := true; error := None |}.

(** ** Further notions for the properties of the whole file *)

(** A text of white space only. *)
Definition blank (s : str) : bool := forallb isspace s.

(** [l1] is [l2] with some elements left out, the order kept. *)
Inductive subseq (A : Type) : list A -> list A -> Prop :=
| subseq_nil : subseq [] []
| subseq_skip : forall x l1 l2, subseq l1 l2 -> subseq l1 (x :: l2)
| subseq_take : forall x l1 l2, subseq l1 l2 -> subseq (x :: l1) (x :: l2).


(** A page with site chrome above the heading, and its cleaned text. *)
Definition heading_page : str :=
  lit "Registry\nProviders\n# azurerm_foo\n\nManages a foo.\n\n\n\nExample".

Definition heading_page_cleaned : str :=
  lit "# azurerm_foo\n\nManages a foo.\n\nExample".

(** A page of white space only. *)
Definition blank_page : str := lit "  \n\n \n".


(** A crawler whose result holds no markdown. *)
Definition arun_no_markdown (k : nat) (u : str) : crawl :=
  CrawlReturns {| result_success := true;
                  error_message := None;
                  markdown_v2 := None |}.

Definition request_absolute : ScrapeRequest :=
  {| url := lit "https://example.org/docs" |}.

(** ** The whole [try] block, with the session around the crawl *)

(** How a step of the [try] block outside [crawler.arun] ends: the step
    before the crawl (the two configurations, the URL, the crawler and
    entering its session) and the step after it (leaving the session).  It
    completes, or raises an [Exception] whose [str] is [message], or raises
    what is no [Exception] (a cancelled task, an interrupt), which no handler
    of [scrape_url] catches.  The crawler raises no [HTTPException] of its
    own, and leaving the session does not swallow an exception. *)
Inductive ending :=
| Completes
| Fails (message : str)
| Aborts.

(** What [crawler.arun] does inside the session: what a [crawl] says, or it
    raises what is no [Exception]. *)
Inductive run :=
| Ran (c : crawl)
| RunAborts.

Record session := {
  enter : ending;
  arun_call : run;
  leave : ending
}.

(** What [scrape_url] ends with, an exception that no handler catches
    among them. *)
Inductive answer :=
| Answers (o : outcome)
| Propagates.

(** [ScrapeResponse(markdown="", success=False, error=str(e))] *)
Definition failure_response (message : str) : ScrapeResponse :=
  {| markdown := []; success := false; error := Some message |}.

(** [scrape_url] over a whole session.  An exception raised on leaving the
    session replaces what the block was about to return or raise. *)
Definition scrape_session (s : session) (request : ScrapeRequest)
  : answer * list str :=
  match enter s with
  | Fails e => (Answers (Returns (failure_response e)), [])
  | Aborts => (Propagates, [])
  | Completes =>
      let calls := [full_url request] in
      match leave s with
      | Fails e => (Answers (Returns (failure_response e)), calls)
      | Aborts => (Propagates, calls)
      | Completes =>
          match arun_call s with
          | RunAborts => (Propagates, calls)
          | Ran c =>
              (Answers (fst (scrape_url (fun _ _ => c) request)), calls)
          end
      end
  end.


(** ** Lemmas on the string operations *)

Unset Implicit Arguments.
#[local] Arguments N.eqb : simpl never.

(** A property of each line of a given list of lines, by evaluation. *)
Ltac each_line :=
  repeat (apply Forall_cons; [vm_compute; try reflexivity; try lia|]);
  apply Forall_nil.

(** ** The operations on small inputs *)

Example split_sample :
  split NL (lit "a\n\nb\n") = [lit "a"; []; lit "b"; []].
Proof. vm_compute. reflexivity. Qed.

Example split_empty : split NL [] = [[]].
Proof. reflexivity. Qed.

Example join_sample :
  join [NL] [lit "a"; []; lit "b"; []] = lit "a\n\nb\n".
Proof. vm_compute. reflexivity. Qed.

Example count_does_not_overlap : count (lit "aa") (lit "aaaaa") = 2.
Proof. vm_compute. reflexivity. Qed.

Example count_links_sample : count (lit "](") (lit "[a](b) and [c](d)") = 2.
Proof. vm_compute. reflexivity. Qed.

Example strip_sample : strip (lit "  \n x y \n\n") = lit "x y".
Proof. vm_compute. reflexivity. Qed.

Example re_sub_newlines_sample :
  re_sub_newlines (lit "a\n\n\n\nb\n\nc\n\n\n") = lit "a\n\nb\n\nc\n\n".
Proof. vm_compute. reflexivity. Qed.

Example str_of_nat_sample : str_of_nat 1203 = lit "1203".
Proof. vm_compute. reflexivity. Qed.

Example scenario_one_boundaries :
  split NL scenario_one =
    [lit "# azurerm_foo"; []; lit "some docs"; []; lit "HashiCorp";
     lit "Privacy"; []] /\
  doc_start (split NL scenario_one) = 0 /\
  doc_end (split NL scenario_one) 0 = 5.
Proof. vm_compute. auto. Qed.

(** A footer marker on the line of the start boundary ends nothing. *)
Example footer_marker_on_start_line :
  clean_terraform_docs (lit "skip\n# azurerm_foo by HashiCorp\nbody") =
  lit "# azurerm_foo by HashiCorp\nbody".
Proof. vm_compute. reflexivity. Qed.

Example full_url_of_path :
  full_url request_path =
  lit "https://registry.terraform.io/providers/hashicorp/azurerm/latest/docs".
Proof. vm_compute. reflexivity. Qed.

Example scrape_url_success :
  scrape_url (arun_letters 300) request_path =
  (Returns response_letters, [full_url request_path]).
Proof. vm_compute. reflexivity. Qed.

Example scrape_url_unexpected_failure :
  scrape_url arun_broken request_path =
  (Returns response_broken, [full_url request_path]).
Proof. vm_compute. reflexivity. Qed.

Section StringLemmas.

Lemma startswith_app (pat s : str) : startswith pat (pat ++ s) = true.
Proof.
  induction pat as [|p pat IH]; simpl; [reflexivity|].
  now rewrite N.eqb_refl, IH.
Qed.

Lemma startswith_app_l (pat a b : str) :
  startswith pat a = true -> startswith pat (a ++ b) = true.
Proof.
  revert a; induction pat as [|p pat IH]; intros [|c a]; simpl; try easy.
  intros H; apply andb_true_iff in H as [H1 H2].
  now rewrite H1, IH.
Qed.

Lemma contains_cons (pat : str) (c : char) (s : str) :
  contains pat (c :: s) = startswith pat (c :: s) || contains pat s.
Proof. reflexivity. Qed.

Lemma contains_app_l (pat a b : str) :
  contains pat a = true -> contains pat (a ++ b) = true.
Proof.
  induction a as [|c a IH]; simpl.
  - rewrite orb_false_r. destruct pat; [|discriminate].
    intros _. destruct b; reflexivity.
  - intros H; apply orb_true_iff in H as [H|H].
    + change (c :: a ++ b) with ((c :: a) ++ b).
      now rewrite (startswith_app_l _ _ _ H).
    + rewrite (IH H). apply orb_true_r.
Qed.

Lemma contains_app_r (pat a b : str) :
  contains pat b = true -> contains pat (a ++ b) = true.
Proof.
  intros H; induction a as [|c a IH]; simpl; [exact H|].
  rewrite IH. apply orb_true_r.
Qed.

Lemma contains_middle (pat a b : str) : contains pat (a ++ pat ++ b) = true.
Proof.
  apply contains_app_r.
  destruct pat as [|p pat]; [destruct b; reflexivity|].
  change (contains (p :: pat) ((p :: pat) ++ b)) with
    (startswith (p :: pat) ((p :: pat) ++ b) || contains (p :: pat) (pat ++ b)).
  now rewrite startswith_app.
Qed.

(** *** [split] and [join] *)

Lemma split_not_nil (sep : char) (s : str) : split sep s <> [].
Proof.
  destruct s as [|c s]; simpl; [discriminate|].
  destruct (N.eqb c sep); [discriminate|].
  destruct (split sep s); discriminate.
Qed.

Lemma split_cons_other (sep c : char) (s : str) :
  N.eqb c sep = false ->
  split sep (c :: s) = (c :: hd [] (split sep s)) :: tl (split sep s).
Proof.
  intros H; simpl; rewrite H.
  pose proof (split_not_nil sep s).
  destruct (split sep s); [contradiction|reflexivity].
Qed.

Lemma split_app_sep (sep : char) (a b : str) :
  split sep (a ++ sep :: b) = split sep a ++ split sep b.
Proof.
  induction a as [|c a IH]; simpl.
  - now rewrite N.eqb_refl.
  - destruct (N.eqb c sep); [now rewrite IH|].
    rewrite IH.
    pose proof (split_not_nil sep a).
    destruct (split sep a); [contradiction|reflexivity].
Qed.

Lemma split_free (sep : char) (l : str) :
  ~ In sep l -> split sep l = [l].
Proof.
  induction l as [|c l IH]; simpl; [reflexivity|].
  intros H. destruct (N.eqb_spec c sep) as [->|Hc].
  - exfalso; apply H; now left.
  - rewrite IH; [reflexivity|]. intros Hin; apply H; now right.
Qed.

Lemma split_lines_free (sep : char) (s : str) :
  Forall (fun l => ~ In sep l) (split sep s).
Proof.
  induction s as [|c s IH]; simpl.
  - constructor; [easy|constructor].
  - destruct (N.eqb_spec c sep) as [->|Hc].
    + constructor; [easy|exact IH].
    + pose proof (split_not_nil sep s).
      destruct (split sep s) as [|l ls]; [contradiction|].
      inversion IH; subst. constructor; [|assumption].
      intros [Heq|Hin]; [congruence|contradiction].
Qed.

Lemma join_cons (sep l : str) (ls : list str) :
  ls <> [] -> join sep (l :: ls) = l ++ sep ++ join sep ls.
Proof. destruct ls; [contradiction|reflexivity]. Qed.

Lemma join_split (sep : char) (s : str) : join [sep] (split sep s) = s.
Proof.
  induction s as [|c s IH]; simpl; [reflexivity|].
  pose proof (split_not_nil sep s) as Hn.
  destruct (N.eqb_spec c sep) as [->|Hc].
  - destruct (split sep s) as [|l ls]; [contradiction|].
    simpl in *. now rewrite IH.
  - destruct (split sep s) as [|l ls]; [contradiction|].
    destruct ls; simpl in *; now rewrite <- IH.
Qed.

Lemma split_join (sep : char) (ls : list str) :
  ls <> [] -> Forall (fun l => ~ In sep l) ls ->
  split sep (join [sep] ls) = ls.
Proof.
  induction ls as [|l ls IH]; [contradiction|].
  intros _ H; inversion H as [|? ? Hl Hls]; subst.
  destruct ls as [|l' ls].
  - simpl. now apply split_free.
  - rewrite join_cons by discriminate.
    change (l ++ [sep] ++ join [sep] (l' :: ls))
      with (l ++ sep :: join [sep] (l' :: ls)).
    rewrite split_app_sep, IH by (discriminate || assumption).
    now rewrite split_free.
Qed.

Lemma startswith_spec (pat s : str) :
  startswith pat s = true <-> exists y, s = pat ++ y.
Proof.
  split.
  - revert s; induction pat as [|p pat IH]; intros s H.
    + now exists s.
    + destruct s as [|c s]; [discriminate|]. simpl in H.
      apply andb_true_iff in H as [H1 H2]. apply N.eqb_eq in H1; subst c.
      destruct (IH _ H2) as [y ->]. now exists y.
  - intros [y ->]. apply startswith_app.
Qed.

Lemma contains_spec (pat s : str) :
  contains pat s = true <-> exists x y, s = x ++ pat ++ y.
Proof.
  split.
  - induction s as [|c s IH]; simpl; intros H.
    + rewrite orb_false_r in H. apply startswith_spec in H as [y Hy].
      now exists [], y.
    + apply orb_true_iff in H as [H|H].
      * change (startswith pat (c :: s) = true) in H.
        apply startswith_spec in H as [y Hy]. now exists [], y.
      * destruct (IH H) as [x [y ->]]. now exists (c :: x), y.
  - intros [x [y ->]]. apply contains_middle.
Qed.

Lemma contains_longer (a b s : str) :
  contains (a ++ b) s = true -> contains b s = true.
Proof.
  intros H. apply contains_spec in H as [x [y ->]].
  rewrite <- app_assoc, app_assoc. apply contains_middle.
Qed.

Lemma existsb_contains_app (pats : list str) (a b c : str) :
  existsb (fun pattern => contains pattern b) pats = true ->
  existsb (fun pattern => contains pattern (a ++ b ++ c)) pats = true.
Proof.
  intros H. apply existsb_exists in H as [pat [Hin Hc]].
  apply existsb_exists. exists pat. split; [assumption|].
  now apply contains_app_r, contains_app_l.
Qed.

(** *** Loops over lines *)

Lemma first_index_none (A : Type) (p : A -> bool) (l : list A) :
  first_index p l = None <-> Forall (fun x => p x = false) l.
Proof.
  induction l as [|x l IH]; simpl.
  - split; [constructor|reflexivity].
  - destruct (p x) eqn:Hx.
    + split; [discriminate|]. intros H; inversion H; congruence.
    + destruct (first_index p l).
      * split; [discriminate|]. intros H; inversion H; subst.
        now apply IH in H3.
      * split; [|reflexivity]. intros _. constructor; [assumption|].
        now apply IH.
Qed.

Lemma first_index_app_first (A : Type) (p : A -> bool)
      (pre : list A) (h : A) (post : list A) :
  Forall (fun x => p x = false) pre -> p h = true ->
  first_index p (pre ++ h :: post) = Some (length pre).
Proof.
  intros Hpre Hh. induction Hpre as [|x pre Hx Hpre IH]; simpl.
  - now rewrite Hh.
  - now rewrite Hx, IH.
Qed.

Lemma first_index_app_l (A : Type) (p : A -> bool) (l l' : list A) (i : nat) :
  first_index p l = Some i -> first_index p (l ++ l') = Some i.
Proof.
  revert i; induction l as [|x l IH]; simpl; intros i; [discriminate|].
  destruct (p x); [easy|].
  destruct (first_index p l) as [j|]; [|discriminate].
  intros H. now rewrite (IH j eq_refl).
Qed.

Lemma first_index_bound (A : Type) (p : A -> bool) (l : list A) (i : nat) :
  first_index p l = Some i -> i < length l.
Proof.
  revert i; induction l as [|x l IH]; simpl; intros i; [discriminate|].
  destruct (p x).
  - intros H; injection H as <-. lia.
  - destruct (first_index p l) as [j|]; [|discriminate].
    intros H; injection H as <-. specialize (IH j eq_refl). lia.
Qed.

Lemma first_index_app_r (A : Type) (p : A -> bool) (l l' : list A) :
  first_index p l = None ->
  first_index p (l ++ l') =
    match first_index p l' with
    | Some j => Some (length l + j)
    | None => None
    end.
Proof.
  induction l as [|x l IH]; simpl.
  - intros _. now destruct (first_index p l').
  - destruct (p x); [discriminate|].
    destruct (first_index p l); [discriminate|].
    intros _. rewrite (IH eq_refl). now destruct (first_index p l').
Qed.

Lemma first_index_found (A : Type) (p : A -> bool) (d : A)
      (l : list A) (i : nat) :
  i < length l -> p (nth i l d) = true ->
  (forall j, j < i -> p (nth j l d) = false) ->
  first_index p l = Some i.
Proof.
  revert i; induction l as [|x l IH]; simpl; intros i Hi Hp Hbefore; [lia|].
  destruct i as [|i].
  - now rewrite Hp.
  - rewrite (Hbefore 0) by lia.
    rewrite (IH i); [reflexivity|lia|assumption|].
    intros j Hj. apply (Hbefore (S j)). lia.
Qed.

Lemma filter_loop_filter (section acc : list str) :
  filter_loop section acc = acc ++ filter keep section.
Proof.
  revert acc; induction section as [|line rest IH]; intros acc; simpl.
  - now rewrite app_nil_r.
  - unfold keep. destruct (nav_noise line); simpl; [apply IH|].
    destruct (link_noise line); simpl; [apply IH|].
    now rewrite IH, <- app_assoc.
Qed.

Lemma cleaned_lines_filter (m : str) :
  cleaned_lines m = filter keep (doc_section (split NL m)).
Proof. unfold cleaned_lines. apply filter_loop_filter. Qed.

(** The function as the source file writes it, top to bottom. *)
Lemma clean_terraform_docs_as_written (markdown : str) :
  clean_terraform_docs markdown =
    let lines := split NL markdown in
    let doc_start :=
      match first_index start_marker lines with Some i => i | None => 0 end in
    let doc_end :=
      match find (fun i => footer_marker (nth i lines []))
                 (range_down (length lines - 1) doc_start) with
      | Some i => i
      | None => length lines
      end in
    let cleaned_lines := filter_loop (slice lines doc_start doc_end) [] in
    let markdown := join [NL] cleaned_lines in
    let markdown := re_sub_newlines markdown in
    strip markdown.
Proof. reflexivity. Qed.

Lemma find_rev_seq_found (p : nat -> bool) (a n i : nat) :
  a <= i < a + n -> p i = true ->
  (forall j, i < j < a + n -> p j = false) ->
  find p (rev (seq a n)) = Some i.
Proof.
  induction n as [|n IH]; intros Hi Hp Hafter; [lia|].
  rewrite seq_S, rev_app_distr. simpl.
  destruct (Nat.eq_dec i (a + n)) as [->|Hne].
  - now rewrite Hp.
  - rewrite (Hafter (a + n)) by lia.
    apply IH; [lia|assumption|]. intros j Hj. apply Hafter. lia.
Qed.

Lemma find_rev_seq_none (p : nat -> bool) (a n : nat) :
  find p (rev (seq a n)) = None <-> (forall j, a <= j < a + n -> p j = false).
Proof.
  induction n as [|n IH].
  - simpl. split; [intros _ j Hj; lia|reflexivity].
  - rewrite seq_S, rev_app_distr. simpl.
    destruct (p (a + n)) eqn:Hp.
    + split; [discriminate|]. intros H. rewrite H in Hp by lia. discriminate.
    + rewrite IH. split; intros H j Hj.
      * destruct (Nat.eq_dec j (a + n)) as [->|Hne]; [assumption|].
        apply H. lia.
      * apply H. lia.
Qed.

Lemma find_rev_seq_some (p : nat -> bool) (a n i : nat) :
  find p (rev (seq a n)) = Some i ->
  a <= i < a + n /\ p i = true /\ (forall j, i < j < a + n -> p j = false).
Proof.
  induction n as [|n IH]; [discriminate|].
  rewrite seq_S, rev_app_distr. simpl.
  destruct (p (a + n)) eqn:Hp.
  - intros H; injection H as <-. split; [lia|]. split; [assumption|].
    intros j Hj; lia.
  - intros H. destruct (IH H) as [H1 [H2 H3]].
    split; [lia|]. split; [assumption|].
    intros j Hj. destruct (Nat.eq_dec j (a + n)) as [->|Hne]; [assumption|].
    apply H3. lia.
Qed.

End StringLemmas.

(** ** The boundaries of the documentation body *)

Section Boundaries.

Lemma doc_end_found (lines : list str) (ds e : nat) :
  ds < e < length lines ->
  footer_marker (nth e lines []) = true ->
  (forall j, e < j < length lines -> footer_marker (nth j lines []) = false) ->
  doc_end lines ds = e.
Proof.
  intros He Hf Hafter. unfold doc_end, range_down.
  rewrite (find_rev_seq_found _ (S ds) (length lines - 1 - ds) e);
    [reflexivity|lia|assumption|].
  intros j Hj. apply Hafter. lia.
Qed.

Lemma doc_end_none (lines : list str) (ds : nat) :
  (forall j, ds < j < length lines -> footer_marker (nth j lines []) = false) ->
  doc_end lines ds = length lines.
Proof.
  intros H. unfold doc_end, range_down.
  replace (find _ _) with (@None nat); [reflexivity|].
  symmetry. apply find_rev_seq_none. intros j Hj. apply H. lia.
Qed.

Lemma doc_end_spec (lines : list str) (ds : nat) :
  let e := doc_end lines ds in
  (ds < e < length lines /\ footer_marker (nth e lines []) = true /\
   forall j, e < j < length lines -> footer_marker (nth j lines []) = false) \/
  (e = length lines /\
   forall j, ds < j < length lines -> footer_marker (nth j lines []) = false).
Proof.
  unfold doc_end, range_down.
  destruct (find _ _) as [e|] eqn:Hfind; simpl.
  - left. apply find_rev_seq_some in Hfind as [H1 [H2 H3]].
    split; [lia|]. split; [assumption|]. intros j Hj. apply H3. lia.
  - right. split; [reflexivity|].
    intros j Hj. apply (proj1 (find_rev_seq_none _ _ _) Hfind). lia.
Qed.

Lemma doc_end_bounds (lines : list str) (ds : nat) :
  ds <= length lines -> ds <= doc_end lines ds <= length lines.
Proof.
  intros H. destruct (doc_end_spec lines ds) as [[H1 _]|[H1 _]]; lia.
Qed.

(** The end boundary is found among the lines after the start boundary
    only: lines put before the start boundary shift it and nothing else. *)
Lemma doc_end_shift (before rest : list str) (d : nat) :
  doc_end (before ++ rest) (length before + d) =
    length before + doc_end rest d.
Proof.
  destruct (doc_end_spec rest d) as [[H1 [H2 H3]]|[H1 H2]].
  - apply doc_end_found.
    + rewrite length_app. lia.
    + now rewrite app_nth2_plus.
    + intros j Hj. rewrite length_app in Hj.
      replace j with (length before + (j - length before)) by lia.
      rewrite app_nth2_plus. apply H3. lia.
  - rewrite H1, <- length_app. apply doc_end_none.
    intros j Hj. rewrite length_app in Hj.
    replace j with (length before + (j - length before)) by lia.
    rewrite app_nth2_plus. apply H2. lia.
Qed.

Lemma slice_shift (A : Type) (before rest : list A) (a b : nat) :
  slice (before ++ rest) (length before + a) (length before + b) =
    slice rest a b.
Proof.
  unfold slice. rewrite skipn_app.
  replace (length before + a - length before) with a by lia.
  rewrite skipn_all2 by lia. simpl. f_equal. lia.
Qed.

Lemma slice_prefix (A : Type) (pre post : list A) (a : nat) :
  a <= length pre ->
  slice (pre ++ post) a (length pre) = skipn a pre.
Proof.
  intros Ha. unfold slice. rewrite skipn_app.
  replace (a - length pre) with 0 by lia. simpl.
  rewrite firstn_app, length_skipn.
  replace (length pre - a - (length pre - a)) with 0 by lia. simpl.
  rewrite app_nil_r. apply firstn_all2. rewrite length_skipn. lia.
Qed.

Lemma slice_whole (A : Type) (l : list A) : slice l 0 (length l) = l.
Proof. unfold slice. simpl. rewrite Nat.sub_0_r. apply firstn_all. Qed.

Lemma doc_start_first (before : list str) (h : str) (rest : list str) :
  Forall (fun l => start_marker l = false) before ->
  start_marker h = true ->
  doc_start (before ++ h :: rest) = length before.
Proof.
  intros Hb Hh. unfold doc_start.
  now rewrite first_index_app_first by assumption.
Qed.

Lemma doc_start_none (lines : list str) :
  Forall (fun l => start_marker l = false) lines -> doc_start lines = 0.
Proof.
  intros H. unfold doc_start.
  apply first_index_none in H. now rewrite H.
Qed.

Lemma doc_start_bound (lines : list str) : doc_start lines <= length lines.
Proof.
  unfold doc_start. destruct (first_index start_marker lines) eqn:H; [|lia].
  apply first_index_bound in H. lia.
Qed.

(** A start boundary inside a prefix of the lines is the start boundary of
    that prefix. *)
Lemma doc_start_prefix (pre post : list str) :
  doc_start (pre ++ post) < length pre ->
  doc_start (pre ++ post) = doc_start pre.
Proof.
  unfold doc_start.
  destruct (first_index start_marker pre) as [i|] eqn:Hpre.
  - now rewrite (first_index_app_l _ _ pre post i Hpre).
  - rewrite (first_index_app_r _ _ pre post Hpre).
    destruct (first_index start_marker post); [lia|reflexivity].
Qed.

(** Lines before the first start marker do not reach the section. *)
Lemma doc_section_trim (before : list str) (h : str) (rest : list str) :
  Forall (fun l => start_marker l = false) before ->
  start_marker h = true ->
  doc_section (before ++ h :: rest) = doc_section (h :: rest).
Proof.
  intros Hb Hh.
  assert (H0 : doc_start (h :: rest) = 0).
  { apply (doc_start_first [] h rest); [constructor|assumption]. }
  unfold doc_section. rewrite H0, doc_start_first by assumption.
  rewrite <- (Nat.add_0_r (length before)) at 2.
  rewrite doc_end_shift.
  rewrite <- (Nat.add_0_r (length before)) at 1.
  apply slice_shift.
Qed.

(** The last footer line after the start boundary ends the section. *)
Lemma doc_section_cut (pre : list str) (f : str) (post : list str) :
  footer_marker f = true ->
  Forall (fun l => footer_marker l = false) post ->
  doc_start (pre ++ f :: post) < length pre ->
  doc_end (pre ++ f :: post) (doc_start (pre ++ f :: post)) = length pre /\
  doc_section (pre ++ f :: post) = skipn (doc_start pre) pre.
Proof.
  intros Hf Hpost Hds.
  assert (He : doc_end (pre ++ f :: post) (doc_start (pre ++ f :: post))
               = length pre).
  { apply doc_end_found.
    - rewrite length_app. simpl. lia.
    - now rewrite nth_middle.
    - intros j Hj. rewrite length_app in Hj. simpl in Hj.
      replace j with (length pre + S (j - length pre - 1)) by lia.
      rewrite app_nth2_plus. simpl.
      rewrite Forall_forall in Hpost. apply Hpost. apply nth_In. lia. }
  split; [exact He|].
  unfold doc_section. rewrite He.
  rewrite slice_prefix by lia.
  now rewrite doc_start_prefix by assumption.
Qed.

End Boundaries.

(** ** White space: [strip] and the collapse of newline runs *)

Section Whitespace.

Lemma lstrip_suffix (s : str) : exists w, s = w ++ lstrip s.
Proof.
  induction s as [|c s [w IH]]; simpl.
  - now exists [].
  - destruct (isspace c).
    + exists (c :: w). simpl. now rewrite <- IH.
    + now exists [].
Qed.

Lemma rstrip_prefix (s : str) : exists w, s = rstrip s ++ w.
Proof.
  unfold rstrip. destruct (lstrip_suffix (rev s)) as [w Hw].
  exists (rev w). rewrite <- rev_app_distr, <- Hw. now rewrite rev_involutive.
Qed.

Lemma strip_infix (s : str) : exists a b, s = a ++ strip s ++ b.
Proof.
  unfold strip. destruct (lstrip_suffix s) as [a Ha].
  destruct (rstrip_prefix (lstrip s)) as [b Hb].
  exists a, b. now rewrite <- Hb.
Qed.

Lemma length_strip (s : str) : length (strip s) <= length s.
Proof.
  destruct (strip_infix s) as [a [b H]].
  rewrite H at 2. rewrite !length_app. lia.
Qed.

Lemma lstrip_leading (s : str) : leading_space (lstrip s) = false.
Proof.
  induction s as [|c s IH]; simpl; [reflexivity|].
  destruct (isspace c) eqn:Hc; [exact IH|]. simpl. exact Hc.
Qed.

Lemma lstrip_id (s : str) : leading_space s = false -> lstrip s = s.
Proof. destruct s as [|c s]; simpl; [reflexivity|]. now intros ->. Qed.

Lemma rstrip_trailing (s : str) : trailing_space (rstrip s) = false.
Proof.
  unfold trailing_space, rstrip. rewrite rev_involutive. apply lstrip_leading.
Qed.

Lemma rstrip_id (s : str) : trailing_space s = false -> rstrip s = s.
Proof.
  unfold trailing_space, rstrip. intros H.
  rewrite lstrip_id by assumption. apply rev_involutive.
Qed.

Lemma rstrip_leading (s : str) :
  leading_space s = false -> leading_space (rstrip s) = false.
Proof.
  intros H. destruct (rstrip_prefix s) as [w Hw].
  destruct (rstrip s) as [|c r]; [reflexivity|].
  rewrite Hw in H. exact H.
Qed.

Lemma strip_id (s : str) :
  leading_space s = false -> trailing_space s = false -> strip s = s.
Proof.
  intros H1 H2. unfold strip. rewrite lstrip_id by assumption.
  now apply rstrip_id.
Qed.

Lemma length_emit_run (run : nat) : length (emit_run run) <= run.
Proof.
  unfold emit_run. destruct (Nat.leb_spec 3 run); simpl; [lia|].
  now rewrite repeat_length.
Qed.

Lemma length_sub_newlines (s : str) (run : nat) :
  length (sub_newlines run s) <= run + length s.
Proof.
  revert run; induction s as [|c s IH]; intros run; simpl.
  - pose proof (length_emit_run run). lia.
  - destruct (N.eqb c NL).
    + specialize (IH (S run)). lia.
    + rewrite length_app. simpl.
      pose proof (length_emit_run run). specialize (IH 0). lia.
Qed.

Lemma repeat_shift (run : nat) (t : str) :
  repeat NL run ++ NL :: t = repeat NL (S run) ++ t.
Proof.
  change (NL :: t) with ([NL] ++ t). rewrite app_assoc, <- repeat_cons.
  reflexivity.
Qed.

Lemma triple_newline_run (run : nat) (t : str) :
  3 <= run -> triple_newline (repeat NL run ++ t) = true.
Proof.
  intros H. replace run with (3 + (run - 3)) by lia.
  rewrite repeat_app, <- app_assoc. unfold triple_newline.
  apply contains_app_l. reflexivity.
Qed.

Lemma triple_newline_suffix (a b : str) :
  triple_newline (a ++ b) = false -> triple_newline b = false.
Proof.
  unfold triple_newline. intros H.
  destruct (contains [NL; NL; NL] b) eqn:Hb; [|reflexivity].
  now rewrite (contains_app_r _ a b Hb) in H.
Qed.

Lemma triple_newline_prefix (a b : str) :
  triple_newline (a ++ b) = false -> triple_newline a = false.
Proof.
  unfold triple_newline. intros H.
  destruct (contains [NL; NL; NL] a) eqn:Ha; [|reflexivity].
  now rewrite (contains_app_l _ a b Ha) in H.
Qed.

Lemma emit_run_short (run : nat) : run < 3 -> emit_run run = repeat NL run.
Proof.
  intros H. unfold emit_run.
  destruct (Nat.leb_spec 3 run); [lia|reflexivity].
Qed.

Lemma emit_run_long (run : nat) : 3 <= run -> emit_run run = [NL; NL].
Proof.
  intros H. unfold emit_run.
  destruct (Nat.leb_spec 3 run); [reflexivity|lia].
Qed.

(** A text without a run of three newlines is left as it is. *)
Lemma sub_newlines_id (t : str) (run : nat) :
  triple_newline (repeat NL run ++ t) = false ->
  sub_newlines run t = repeat NL run ++ t.
Proof.
  revert run; induction t as [|c t IH]; intros run H.
  - simpl. rewrite app_nil_r. apply emit_run_short.
    destruct (Nat.lt_ge_cases run 3) as [Hlt|Hge]; [assumption|].
    now rewrite (triple_newline_run run [] Hge) in H.
  - simpl. destruct (N.eqb_spec c NL) as [->|Hc].
    + rewrite repeat_shift in H. rewrite (IH _ H).
      now rewrite repeat_shift.
    + rewrite (IH 0) by (apply (triple_newline_suffix (repeat NL run ++ [c]));
                          now rewrite <- app_assoc).
      rewrite emit_run_short; [reflexivity|].
      destruct (Nat.lt_ge_cases run 3) as [Hlt|Hge]; [assumption|].
      now rewrite (triple_newline_run run _ Hge) in H.
Qed.

Lemma re_sub_newlines_id (t : str) :
  triple_newline t = false -> re_sub_newlines t = t.
Proof. intros H. unfold re_sub_newlines. now rewrite sub_newlines_id. Qed.

Lemma sub_newlines_run (n run : nat) (b : str) :
  sub_newlines run (repeat NL n ++ b) = sub_newlines (run + n) b.
Proof.
  revert run; induction n as [|n IH]; intros run; simpl.
  - now rewrite Nat.add_0_r.
  - rewrite IH. f_equal. lia.
Qed.

Lemma sub_newlines_pending (run : nat) (b : str) :
  starts_with_newline b = false ->
  sub_newlines run b = emit_run run ++ sub_newlines 0 b.
Proof.
  destruct b as [|c b]; simpl.
  - intros _. now rewrite app_nil_r.
  - unfold starts_with_newline. simpl. rewrite andb_true_r, N.eqb_sym.
    now intros ->.
Qed.

Lemma ends_with_newline_cons (c : char) (a : str) :
  a <> [] -> ends_with_newline (c :: a) = ends_with_newline a.
Proof.
  intros Ha. unfold ends_with_newline. simpl.
  destruct (rev a) as [|d r] eqn:Hr; [|reflexivity].
  apply (f_equal (@rev char)) in Hr. rewrite rev_involutive in Hr.
  contradiction.
Qed.

Lemma sub_newlines_app (a x : str) (run : nat) :
  a <> [] -> ends_with_newline a = false ->
  sub_newlines run (a ++ x) = sub_newlines run a ++ sub_newlines 0 x.
Proof.
  revert run; induction a as [|c a IH]; intros run Hne Hend; [contradiction|].
  destruct a as [|d a].
  - unfold ends_with_newline in Hend. simpl in Hend.
    rewrite andb_true_r, N.eqb_sym in Hend. simpl. rewrite Hend.
    now rewrite <- app_assoc.
  - rewrite ends_with_newline_cons in Hend by discriminate.
    change ((c :: d :: a) ++ x) with (c :: ((d :: a) ++ x)).
    cbn [sub_newlines]. destruct (N.eqb c NL).
    + apply IH; [discriminate|assumption].
    + rewrite IH by (discriminate || assumption).
      now rewrite <- app_assoc.
Qed.

(** What the substitution does to one run of newlines between two texts. *)
Lemma re_sub_newlines_run (a b : str) (n : nat) :
  ends_with_newline a = false -> starts_with_newline b = false ->
  re_sub_newlines (a ++ repeat NL n ++ b) =
    re_sub_newlines a ++ emit_run n ++ re_sub_newlines b.
Proof.
  intros Ha Hb. unfold re_sub_newlines.
  destruct a as [|c a].
  - simpl. rewrite sub_newlines_run. simpl.
    now apply sub_newlines_pending.
  - rewrite sub_newlines_app by (discriminate || assumption).
    rewrite sub_newlines_run. simpl.
    now rewrite (sub_newlines_pending n b Hb).
Qed.

Lemma triple_newline_emit_run (run : nat) :
  triple_newline (emit_run run) = false.
Proof. destruct run as [|[|[|run]]]; reflexivity. Qed.

Lemma triple_newline_emit_cons (run : nat) (c : char) (z : str) :
  N.eqb c NL = false -> triple_newline z = false ->
  triple_newline (emit_run run ++ c :: z) = false.
Proof.
  intros Hc Hz. rewrite N.eqb_sym in Hc. unfold triple_newline in *.
  assert (H0 : contains [NL; NL; NL] (c :: z) = false).
  { rewrite contains_cons. cbn [startswith]. now rewrite Hc, Hz. }
  assert (H1 : contains [NL; NL; NL] (NL :: c :: z) = false).
  { rewrite contains_cons. cbn [startswith].
    now rewrite Hc, andb_false_r, H0. }
  assert (H2 : contains [NL; NL; NL] (NL :: NL :: c :: z) = false).
  { rewrite contains_cons. cbn [startswith].
    now rewrite Hc, !andb_false_r, H1. }
  destruct run as [|[|[|run]]]; assumption.
Qed.

(** After the substitution no run of three newlines is left. *)
Lemma sub_newlines_no_triple (t : str) (run : nat) :
  triple_newline (sub_newlines run t) = false.
Proof.
  revert run; induction t as [|c t IH]; intros run; simpl.
  - apply triple_newline_emit_run.
  - destruct (N.eqb c NL) eqn:Hc; [apply IH|].
    now apply triple_newline_emit_cons.
Qed.

Lemma triple_newline_strip (s : str) :
  triple_newline s = false -> triple_newline (strip s) = false.
Proof.
  intros H. destruct (strip_infix s) as [a [b Hs]]. rewrite Hs in H.
  apply triple_newline_suffix in H. now apply triple_newline_prefix in H.
Qed.

Lemma strip_leading (s : str) : leading_space (strip s) = false.
Proof. unfold strip. apply rstrip_leading, lstrip_leading. Qed.

Lemma strip_trailing (s : str) : trailing_space (strip s) = false.
Proof. unfold strip. apply rstrip_trailing. Qed.

Lemma triple_newline_free (l : str) : ~ In NL l -> triple_newline l = false.
Proof.
  intros H. unfold triple_newline.
  destruct (contains [NL; NL; NL] l) eqn:Hc; [|reflexivity].
  apply contains_spec in Hc as [x [y ->]]. exfalso. apply H.
  apply in_or_app. right. now left.
Qed.

Lemma ends_with_newline_free (l : str) : ~ In NL l -> ends_with_newline l = false.
Proof.
  intros H. unfold ends_with_newline.
  destruct (rev l) as [|c r] eqn:Hr; [reflexivity|].
  simpl. rewrite andb_true_r. apply N.eqb_neq. intros <-.
  apply H, in_rev. rewrite Hr. now left.
Qed.

Lemma starts_with_newline_free (l : str) :
  ~ In NL l -> starts_with_newline l = false.
Proof.
  intros H. destruct l as [|c l]; [reflexivity|].
  unfold starts_with_newline. simpl. rewrite andb_true_r.
  apply N.eqb_neq. intros <-. apply H. now left.
Qed.

End Whitespace.

(** ** The lines that are kept *)

Section KeptLines.

Lemma length_join (c : char) (ls : list str) :
  length (join [c] ls) = weight ls - 1.
Proof.
  unfold weight. induction ls as [|l ls IH]; [reflexivity|].
  destruct ls as [|l' ls].
  - simpl. lia.
  - rewrite join_cons by discriminate. rewrite !length_app, IH.
    simpl. lia.
Qed.

Lemma weight_filter (f : str -> bool) (ls : list str) :
  weight (filter f ls) <= weight ls.
Proof.
  unfold weight. induction ls as [|l ls IH]; simpl; [lia|].
  destruct (f l); simpl; lia.
Qed.

Lemma weight_app (l1 l2 : list str) : weight (l1 ++ l2) = weight l1 + weight l2.
Proof. unfold weight. now rewrite map_app, list_sum_app. Qed.

Lemma weight_slice (ls : list str) (a b : nat) :
  weight (slice ls a b) <= weight ls.
Proof.
  unfold slice.
  rewrite <- (firstn_skipn a ls) at 2.
  rewrite <- (firstn_skipn (b - a) (skipn a ls)) at 2.
  rewrite !weight_app. lia.
Qed.

Lemma filter_all (A : Type) (f : A -> bool) (l : list A) :
  Forall (fun x => f x = true) l -> filter f l = l.
Proof.
  induction 1 as [|x l Hx _ IH]; simpl; [reflexivity|].
  now rewrite Hx, IH.
Qed.

(** A page without boundary markers and without noise lines is only
    normalized. *)
Lemma cleaned_lines_plain (m : str) :
  Forall (fun l => start_marker l = false) (split NL m) ->
  Forall (fun l => footer_marker l = false) (split NL m) ->
  Forall (fun l => keep l = true) (split NL m) ->
  cleaned_lines m = split NL m.
Proof.
  intros Hs Hf Hk. rewrite cleaned_lines_filter. unfold doc_section.
  rewrite doc_start_none by assumption.
  rewrite doc_end_none.
  - rewrite slice_whole. now apply filter_all.
  - intros j Hj. rewrite Forall_forall in Hf. apply Hf, nth_In. lia.
Qed.

End KeptLines.

Lemma example_usage_heading (line : str) :
  contains (lit "## Example Usage") line = true ->
  contains (lit "Example Usage") line = true.
Proof.
  assert (E : lit "## Example Usage" = lit "## " ++ lit "Example Usage")
    by (vm_compute; reflexivity).
  rewrite E. apply contains_longer.
Qed.

Lemma start_marker_words (line : str) :
  start_marker line = start_boundary_line line.
Proof.
  unfold start_marker, start_boundary_line, heading.
  destruct (contains (lit "## Example Usage") line) eqn:H.
  - rewrite (example_usage_heading _ H). now rewrite !orb_true_r.
  - now rewrite orb_false_r.
Qed.

Lemma heading_start_marker (line : str) :
  heading line = true -> start_marker line = true.
Proof.
  intros H. rewrite start_marker_words. unfold start_boundary_line.
  now rewrite H.
Qed.

Lemma cleaned_lines_trim (p r : str) :
  Forall (fun l => start_marker l = false) (split NL p) ->
  start_marker (hd [] (split NL r)) = true ->
  cleaned_lines (p ++ NL :: r) = cleaned_lines r.
Proof.
  intros Hp Hr. rewrite !cleaned_lines_filter. rewrite split_app_sep.
  pose proof (split_not_nil NL r) as Hn.
  destruct (split NL r) as [|h rest]; [contradiction|].
  simpl in Hr. now rewrite doc_section_trim.
Qed.

Lemma cleaned_lines_cut (m : str) (pre : list str) (f : str) (post : list str) :
  split NL m = pre ++ f :: post ->
  footer_marker f = true ->
  Forall (fun l => footer_marker l = false) post ->
  doc_start (split NL m) < length pre ->
  doc_end (split NL m) (doc_start (split NL m)) = length pre /\
  cleaned_lines m = filter keep (skipn (doc_start pre) pre).
Proof.
  intros Hm Hf Hpost Hds. rewrite cleaned_lines_filter. rewrite Hm in *.
  destruct (doc_section_cut pre f post Hf Hpost Hds) as [He Hsec].
  split; [exact He|]. now rewrite Hsec.
Qed.

(** C1, as the program has it: when a line after the start boundary holds a
    footer marker, the end boundary is the last such line; the output is
    made of the lines from the start boundary up to that line only, so that
    line and all lines after it are dropped, while an earlier line holding a
    marker stays.  Cleaning the first scenario gives the heading, the text
    and the line "HashiCorp". *)
Theorem end_boundary_is_last_footer_line :
  (forall (m : str) (pre : list str) (f : str) (post : list str),
      split NL m = pre ++ f :: post ->
      footer_marker f = true ->
      Forall (fun l => footer_marker l = false) post ->
      doc_start (split NL m) < length pre ->
      doc_end (split NL m) (doc_start (split NL m)) = length pre /\
      cleaned_lines m = filter keep (skipn (doc_start pre) pre) /\
      clean_terraform_docs m =
        normalize (join [NL] (filter keep (skipn (doc_start pre) pre)))) /\
  clean_terraform_docs scenario_one =
    lit "# azurerm_foo\n\nsome docs\n\nHashiCorp".
Proof.
  split.
  - intros m pre f post Hm Hf Hpost Hds.
    destruct (cleaned_lines_cut m pre f post Hm Hf Hpost Hds) as [He Hc].
    split; [exact He|]. split; [exact Hc|].
    unfold clean_terraform_docs. now rewrite Hc.
  - vm_compute. reflexivity.
Qed.

Lemma end_boundary_is_last_footer_line_witness :
  doc_end (split NL scenario_one) (doc_start (split NL scenario_one)) =
    length scenario_one_above /\
  cleaned_lines scenario_one =
    filter keep (skipn (doc_start scenario_one_above) scenario_one_above) /\
  clean_terraform_docs scenario_one =
    normalize
      (join [NL]
         (filter keep
            (skipn (doc_start scenario_one_above) scenario_one_above))).
Proof.
  apply (proj1 end_boundary_is_last_footer_line scenario_one
           scenario_one_above (lit "Privacy") [[]]).
  - vm_compute. reflexivity.
  - vm_compute. reflexivity.
  - constructor; [vm_compute; reflexivity|constructor].
  - apply Nat.ltb_lt. vm_compute. reflexivity.
Defined.

(** Against C1 as the design document states it: on its own scenario the
    cleaned text is not the heading and the text alone; the line
    "HashiCorp", which holds a footer marker, is still in it. *)
Lemma scenario_one_keeps_footer_line :
  footer_marker (lit "HashiCorp") = true /\
  In (lit "HashiCorp") (split NL scenario_one) /\
  In (lit "HashiCorp") (split NL (clean_terraform_docs scenario_one)) /\
  contains (lit "HashiCorp") (clean_terraform_docs scenario_one) = true /\
  clean_terraform_docs scenario_one <> lit "# azurerm_foo\n\nsome docs".
Proof.
  split; [vm_compute; reflexivity|].
  split; [vm_compute; tauto|].
  split; [vm_compute; tauto|].
  split; [vm_compute; reflexivity|].
  vm_compute. discriminate.
Qed.

(** C5, as the program has it: the start boundary is the first line that
    starts with one of the two heading prefixes or contains "Example Usage";
    when that first line is a heading, nothing before it reaches the output;
    a line before a heading survives when it, or a line before it, contains
    "Example Usage"; with no such line the start boundary is line 0 and
    nothing is trimmed at the top. *)
Theorem start_boundary_is_first_marker_line :
  (forall line, start_marker line = start_boundary_line line) /\
  (forall (lines : list str) (i : nat),
      i < length lines ->
      start_boundary_line (nth i lines []) = true ->
      (forall j, j < i -> start_boundary_line (nth j lines []) = false) ->
      doc_start lines = i) /\
  (forall p r : str,
      Forall (fun l => start_boundary_line l = false) (split NL p) ->
      heading (hd [] (split NL r)) = true ->
      clean_terraform_docs (p ++ NL :: r) = clean_terraform_docs r) /\
  (forall m : str,
      Forall (fun l => start_boundary_line l = false) (split NL m) ->
      doc_start (split NL m) = 0 /\
      doc_section (split NL m) =
        firstn (doc_end (split NL m) 0) (split NL m)).
Proof.
  split; [exact start_marker_words|]. split; [|split].
  - intros lines i Hi Hat Hbefore. unfold doc_start.
    rewrite (first_index_found _ start_marker [] lines i); try assumption.
    + reflexivity.
    + now rewrite start_marker_words.
    + intros j Hj. rewrite start_marker_words. now apply Hbefore.
  - intros p r Hp Hr. unfold clean_terraform_docs.
    rewrite cleaned_lines_trim; [reflexivity| |].
    + eapply Forall_impl; [|exact Hp].
      intros l Hl. now rewrite start_marker_words.
    + now apply heading_start_marker.
  - intros m Hm.
    assert (H0 : doc_start (split NL m) = 0).
    { apply doc_start_none. eapply Forall_impl; [|exact Hm].
      intros l Hl. now rewrite start_marker_words. }
    split; [exact H0|].
    unfold doc_section, slice. rewrite H0. simpl. now rewrite Nat.sub_0_r.
Qed.

Lemma start_boundary_is_first_marker_line_witness :
  clean_terraform_docs (lit "Registry" ++ NL :: lit "# azurerm_foo\nbody") =
  clean_terraform_docs (lit "# azurerm_foo\nbody").
Proof.
  apply (proj1 (proj2 (proj2 start_boundary_is_first_marker_line))).
  - constructor; [vm_compute; reflexivity|constructor].
  - vm_compute. reflexivity.
Defined.

(** Against C5 as the design document states it: the second line of this
    page is a recognizable heading, and the line before it is still in the
    output. *)
Lemma line_before_heading_survives :
  heading (nth 1 (split NL early_example_usage) []) = true /\
  nth 0 (split NL early_example_usage) [] = lit "Docs: Example Usage" /\
  clean_terraform_docs early_example_usage = early_example_usage /\
  In (lit "Docs: Example Usage")
     (split NL (clean_terraform_docs early_example_usage)).
Proof.
  split; [vm_compute; reflexivity|].
  split; [vm_compute; reflexivity|].
  split; [vm_compute; reflexivity|].
  vm_compute. tauto.
Qed.

(** C10: the cleaned text is never longer than the raw text. *)
Theorem clean_terraform_docs_length :
  forall m : str, length (clean_terraform_docs m) <= length m.
Proof.
  intros m. unfold clean_terraform_docs, normalize, re_sub_newlines.
  pose proof (length_strip (sub_newlines 0 (join [NL] (cleaned_lines m)))) as H1.
  pose proof (length_sub_newlines (join [NL] (cleaned_lines m)) 0) as H2.
  pose proof (length_join NL (cleaned_lines m)) as H3.
  pose proof (length_join NL (split NL m)) as H4.
  rewrite join_split in H4.
  pose proof (weight_filter keep (doc_section (split NL m))) as H5.
  pose proof (weight_slice (split NL m) (doc_start (split NL m))
                (doc_end (split NL m) (doc_start (split NL m)))) as H6.
  fold (doc_section (split NL m)) in H6.
  rewrite <- cleaned_lines_filter in H5.
  lia.
Qed.

(** C8: a document with no start marker, no footer marker, no line that is
    navigation noise, no line with more than 5 links and no run of three
    newlines is returned as it is, its surrounding white space trimmed. *)
Theorem clean_of_cleaned_document :
  forall m : str,
    Forall (fun l => start_marker l = false) (split NL m) ->
    Forall (fun l => footer_marker l = false) (split NL m) ->
    Forall (fun l => nav_noise l = false) (split NL m) ->
    Forall (fun l => count (lit "](") l <= 5) (split NL m) ->
    triple_newline m = false ->
    clean_terraform_docs m = strip m.
Proof.
  intros m Hs Hf Hn Hl Ht. unfold clean_terraform_docs, normalize.
  rewrite cleaned_lines_plain; try assumption.
  - now rewrite join_split, re_sub_newlines_id.
  - rewrite Forall_forall in *. intros l Hin. unfold keep, link_noise.
    rewrite (Hn l Hin). specialize (Hl l Hin).
    destruct (Nat.ltb_spec 5 (count (lit "](") l)); [lia|reflexivity].
Qed.

Lemma clean_of_cleaned_document_witness :
  clean_terraform_docs tidy_page = strip tidy_page.
Proof.
  apply clean_of_cleaned_document.
  - vm_compute split. each_line.
  - vm_compute split. each_line.
  - vm_compute split. each_line.
  - vm_compute split. each_line.
  - vm_compute. reflexivity.
Defined.

Example tidy_page_cleaned :
  clean_terraform_docs tidy_page = lit "hello\n\nworld".
Proof. vm_compute. reflexivity. Qed.

Lemma split_newlines_then (b : str) (k : nat) :
  ~ In NL b -> split NL (repeat NL k ++ b) = repeat [] k ++ [b].
Proof.
  intros Hb. induction k as [|k IH]; cbn [repeat app].
  - now apply split_free.
  - cbn [split]. now rewrite N.eqb_refl, IH.
Qed.

Lemma split_two_blocks (a b : str) (k : nat) :
  ~ In NL a -> ~ In NL b ->
  split NL (a ++ repeat NL (S k) ++ b) = a :: repeat [] k ++ [b].
Proof.
  intros Ha Hb. simpl. rewrite split_app_sep, split_newlines_then by assumption.
  now rewrite split_free.
Qed.

Lemma plain_line_spec (l : str) :
  plain_line l = true ->
  start_marker l = false /\ footer_marker l = false /\ keep l = true.
Proof.
  unfold plain_line. intros H.
  apply andb_true_iff in H as [H Hk]. apply andb_true_iff in H as [Hs Hf].
  apply negb_true_iff in Hs, Hf. auto.
Qed.

Lemma leading_space_app (a x : str) :
  a <> [] -> leading_space (a ++ x) = leading_space a.
Proof. destruct a; [contradiction|reflexivity]. Qed.

Lemma trailing_space_app (x b : str) :
  b <> [] -> trailing_space (x ++ b) = trailing_space b.
Proof.
  intros Hb. unfold trailing_space. rewrite rev_app_distr.
  apply leading_space_app. intros Hr.
  apply (f_equal (@rev char)) in Hr. rewrite rev_involutive in Hr.
  contradiction.
Qed.

(** Two plain lines with a run of newlines between them. *)
Lemma clean_two_blocks (a b : str) (n : nat) :
  1 <= n -> ~ In NL a -> ~ In NL b ->
  plain_line a = true -> plain_line b = true ->
  a <> [] -> leading_space a = false ->
  b <> [] -> trailing_space b = false ->
  clean_terraform_docs (a ++ repeat NL n ++ b) = a ++ emit_run n ++ b.
Proof.
  intros Hn Ha Hb Hpa Hpb Hane Hal Hbne Hbt.
  destruct n as [|k]; [lia|].
  assert (Hall : Forall (fun l => plain_line l = true)
                   (split NL (a ++ repeat NL (S k) ++ b))).
  { rewrite split_two_blocks by assumption.
    constructor; [assumption|]. apply Forall_app. split.
    - apply Forall_forall. intros l Hl. apply repeat_spec in Hl. now subst l.
    - constructor; [assumption|constructor]. }
  unfold clean_terraform_docs, normalize.
  rewrite cleaned_lines_plain;
    try (eapply Forall_impl; [|exact Hall]; intros l Hl;
         now apply plain_line_spec in Hl).
  rewrite join_split.
  rewrite re_sub_newlines_run
    by (now apply ends_with_newline_free || now apply starts_with_newline_free).
  rewrite !re_sub_newlines_id by now apply triple_newline_free.
  apply strip_id.
  - now rewrite leading_space_app.
  - now rewrite app_assoc, trailing_space_app.
Qed.

(** C9, as the program has it: the output has no run of three newlines and
    no white space at its ends; the substitution turns a run of three or
    more newlines into two; two plain lines with three or more newlines
    between them come out with two newlines between them, as the page "a",
    5 newlines, "b" does. *)
Theorem output_is_normalized :
  (forall m : str, triple_newline (clean_terraform_docs m) = false) /\
  (forall m : str,
      leading_space (clean_terraform_docs m) = false /\
      trailing_space (clean_terraform_docs m) = false) /\
  (forall (a b : str) (n : nat),
      3 <= n ->
      ends_with_newline a = false -> starts_with_newline b = false ->
      re_sub_newlines (a ++ repeat NL n ++ b) =
        re_sub_newlines a ++ [NL; NL] ++ re_sub_newlines b) /\
  (forall (a b : str) (n : nat),
      3 <= n -> ~ In NL a -> ~ In NL b ->
      plain_line a = true -> plain_line b = true ->
      a <> [] -> leading_space a = false ->
      b <> [] -> trailing_space b = false ->
      clean_terraform_docs (a ++ repeat NL n ++ b) = a ++ [NL; NL] ++ b) /\
  clean_terraform_docs (lit "a\n\n\n\n\nb") = lit "a\n\nb".
Proof.
  split; [|split; [|split; [|split]]].
  - intros m. unfold clean_terraform_docs, normalize, re_sub_newlines.
    apply triple_newline_strip, sub_newlines_no_triple.
  - intros m. unfold clean_terraform_docs, normalize.
    split; [apply strip_leading|apply strip_trailing].
  - intros a b n Hn Ha Hb.
    rewrite re_sub_newlines_run by assumption.
    now rewrite emit_run_long.
  - intros a b n Hn Ha Hb Hpa Hpb Hane Hal Hbne Hbt.
    rewrite clean_two_blocks by (assumption || lia).
    now rewrite emit_run_long.
  - vm_compute. reflexivity.
Qed.

Lemma output_is_normalized_witness :
  clean_terraform_docs (lit "a" ++ repeat NL 5 ++ lit "b") =
  lit "a" ++ [NL; NL] ++ lit "b".
Proof.
  apply (proj1 (proj2 (proj2 (proj2 output_is_normalized)))).
  - lia.
  - vm_compute. intuition discriminate.
  - vm_compute. intuition discriminate.
  - vm_compute. reflexivity.
  - vm_compute. reflexivity.
  - discriminate.
  - vm_compute. reflexivity.
  - discriminate.
  - vm_compute. reflexivity.
Defined.

(** Against C9 as the design document states it: this input holds five
    newlines in a row and its cleaned text holds none; the run is collapsed
    to two newlines and then trimmed away with the end of the text. *)
Lemma trailing_newline_run_is_trimmed :
  contains (repeat NL 5) (lit "a\n\n\n\n\n") = true /\
  clean_terraform_docs (lit "a\n\n\n\n\n") = lit "a" /\
  contains [NL; NL] (clean_terraform_docs (lit "a\n\n\n\n\n")) = false.
Proof.
  split; [vm_compute; reflexivity|].
  split; vm_compute; reflexivity.
Qed.

(** ** Properties of the lines of the output *)

Section LinesOfOutput.

Lemma in_slice (A : Type) (l : list A) (a b : nat) (x : A) :
  In x (slice l a b) -> In x l.
Proof.
  unfold slice. intros H.
  rewrite <- (firstn_skipn a l). apply in_or_app. right.
  rewrite <- (firstn_skipn (b - a) (skipn a l)). apply in_or_app. now left.
Qed.

Lemma in_cleaned_lines (m : str) (line : str) :
  In line (cleaned_lines m) <->
  In line (doc_section (split NL m)) /\ keep line = true.
Proof. rewrite cleaned_lines_filter. apply filter_In. Qed.

Lemma cleaned_lines_free (m : str) :
  Forall (fun l => ~ In NL l) (cleaned_lines m).
Proof.
  apply Forall_forall. intros l Hl.
  apply in_cleaned_lines in Hl as [Hl _]. apply in_slice in Hl.
  pose proof (split_lines_free NL m) as H. rewrite Forall_forall in H.
  now apply H.
Qed.

Lemma split_app (sep : char) (a b : str) :
  split sep (a ++ b) =
    removelast (split sep a) ++
    (last (split sep a) [] ++ hd [] (split sep b)) :: tl (split sep b).
Proof.
  induction a as [|c a IH].
  - simpl. pose proof (split_not_nil sep b).
    destruct (split sep b); [contradiction|reflexivity].
  - pose proof (split_not_nil sep a) as Ha.
    change ((c :: a) ++ b) with (c :: (a ++ b)).
    destruct (N.eqb c sep) eqn:Hc.
    + cbn [split]. rewrite Hc, IH.
      destruct (split sep a) as [|l ls]; [contradiction|reflexivity].
    + rewrite !split_cons_other by assumption. rewrite IH.
      destruct (split sep a) as [|l ls]; [contradiction|].
      destruct ls as [|l' ls]; reflexivity.
Qed.

Variable P : str -> Prop.
Hypothesis P_nil : P [].
Hypothesis P_prefix : forall a b, P (a ++ b) -> P a.
Hypothesis P_suffix : forall a b, P (a ++ b) -> P b.

Lemma lines_prefix (a b : str) :
  Forall P (split NL (a ++ b)) -> Forall P (split NL a).
Proof.
  rewrite split_app. intros H. apply Forall_app in H as [H1 H2].
  inversion H2 as [|? ? Hl _]; subst.
  pose proof (split_not_nil NL a) as Ha.
  rewrite (app_removelast_last [] Ha). apply Forall_app. split; [assumption|].
  constructor; [|constructor]. exact (P_prefix _ _ Hl).
Qed.

Lemma lines_suffix (a b : str) :
  Forall P (split NL (a ++ b)) -> Forall P (split NL b).
Proof.
  rewrite split_app. intros H. apply Forall_app in H as [_ H2].
  inversion H2 as [|? ? Hl Htl]; subst.
  pose proof (split_not_nil NL b) as Hb.
  destruct (split NL b) as [|l ls]; [contradiction|].
  constructor; [|assumption]. exact (P_suffix _ _ Hl).
Qed.

Lemma lines_strip (s : str) :
  Forall P (split NL s) -> Forall P (split NL (strip s)).
Proof.
  intros H. destruct (strip_infix s) as [a [b Hs]]. rewrite Hs in H.
  apply lines_suffix in H. now apply lines_prefix in H.
Qed.

Lemma lines_newlines (k : nat) : Forall P (split NL (repeat NL k)).
Proof.
  induction k as [|k IH]; cbn [repeat split].
  - constructor; [assumption|constructor].
  - rewrite N.eqb_refl. constructor; assumption.
Qed.

Lemma lines_sep (a b : str) :
  Forall P (split NL (a ++ NL :: b)) <->
  Forall P (split NL a) /\ Forall P (split NL b).
Proof. rewrite split_app_sep. apply Forall_app. Qed.

Lemma lines_after_newlines (a : str) (k : nat) (b : str) :
  1 <= k ->
  Forall P (split NL (a ++ repeat NL k ++ b)) <->
  Forall P (split NL a) /\ Forall P (split NL b).
Proof.
  intros Hk. destruct k as [|k]; [lia|]. clear Hk.
  cbn [repeat app]. rewrite lines_sep.
  induction k as [|k IH]; cbn [repeat app]; [reflexivity|].
  rewrite <- IH. change (NL :: repeat NL k ++ b) with ([] ++ NL :: repeat NL k ++ b).
  rewrite lines_sep. cbn [split]. intuition; constructor; auto.
Qed.

Lemma lines_emit_run (a : str) (run : nat) (b : str) :
  Forall P (split NL (a ++ repeat NL run ++ b)) ->
  Forall P (split NL (a ++ emit_run run ++ b)).
Proof.
  destruct (Nat.lt_ge_cases run 3) as [Hlt|Hge].
  - now rewrite emit_run_short.
  - rewrite emit_run_long by assumption.
    change [NL; NL] with (repeat NL 2).
    rewrite !lines_after_newlines by lia. trivial.
Qed.

(** The substitution leaves each line a line of the text it reads. *)
Lemma lines_sub_newlines (t : str) (run : nat) (pre : str) :
  Forall P (split NL (pre ++ repeat NL run ++ t)) ->
  Forall P (split NL (pre ++ sub_newlines run t)).
Proof.
  revert run pre; induction t as [|c t IH]; intros run pre H.
  - cbn [sub_newlines]. rewrite <- (app_nil_r (emit_run run)).
    now apply lines_emit_run.
  - cbn [sub_newlines]. destruct (N.eqb_spec c NL) as [->|Hc].
    + apply IH. now rewrite <- repeat_shift.
    + apply lines_emit_run in H.
      replace (pre ++ emit_run run ++ c :: sub_newlines 0 t)
        with ((pre ++ emit_run run ++ [c]) ++ sub_newlines 0 t)
        by now rewrite <- !app_assoc.
      apply (IH 0). cbn [repeat app].
      now rewrite <- !app_assoc.
Qed.

Lemma lines_join (ls : list str) :
  Forall (fun l => ~ In NL l) ls -> Forall P ls ->
  Forall P (split NL (join [NL] ls)).
Proof.
  intros Hfree HP. destruct ls as [|l ls].
  - simpl. constructor; [assumption|constructor].
  - now rewrite split_join by (discriminate || assumption).
Qed.

Lemma lines_normalize (ls : list str) :
  Forall (fun l => ~ In NL l) ls -> Forall P ls ->
  Forall P (split NL (normalize (join [NL] ls))).
Proof.
  intros Hfree HP. unfold normalize, re_sub_newlines.
  apply lines_strip.
  apply (lines_sub_newlines (join [NL] ls) 0 []).
  now apply lines_join.
Qed.

End LinesOfOutput.

(** ** Counting links *)

Section Links.

Lemma lit_link : lit "](" = [RBRACKET; LPAREN].
Proof. vm_compute. reflexivity. Qed.

Lemma count_from_link_pairs (n : nat) (s : str) :
  length s <= n -> count_from [RBRACKET; LPAREN] 0 s = link_pairs s.
Proof.
  revert s; induction n as [|n IH]; intros s Hn.
  - destruct s; [reflexivity|simpl in Hn; lia].
  - destruct s as [|c s]; [reflexivity|]. simpl in Hn.
    cbn [count_from link_pairs startswith length Nat.sub].
    rewrite (N.eqb_sym RBRACKET c).
    destruct (N.eqb c RBRACKET); cbn [andb].
    2:{ cbn [Nat.add]. apply IH. lia. }
    destruct s as [|d s]; [reflexivity|].
    cbn [startswith andb]. rewrite andb_true_r.
    destruct (N.eqb_spec LPAREN d) as [<-|Hd].
    + cbn [count_from link_pairs]. replace (N.eqb LPAREN RBRACKET) with false
        by reflexivity.
      cbn [andb Nat.add]. f_equal. apply IH. simpl in Hn. lia.
    + cbn [Nat.add]. apply IH. lia.
Qed.

Lemma count_link_pairs (s : str) : count (lit "](") s = link_pairs s.
Proof.
  rewrite lit_link. unfold count.
  now apply (count_from_link_pairs (length s)).
Qed.

Lemma link_pairs_app (a b : str) :
  link_pairs a + link_pairs b <= link_pairs (a ++ b).
Proof.
  induction a as [|c a IH]; [simpl; lia|].
  change ((c :: a) ++ b) with (c :: (a ++ b)). cbn [link_pairs].
  destruct (N.eqb c RBRACKET); cbn [andb]; [|lia].
  destruct (startswith [LPAREN] a) eqn:Ha; [|lia].
  rewrite (startswith_app_l _ _ b Ha). lia.
Qed.

Lemma count_links_prefix (a b : str) :
  count (lit "](") (a ++ b) <= 5 -> count (lit "](") a <= 5.
Proof.
  rewrite !count_link_pairs. pose proof (link_pairs_app a b). lia.
Qed.

Lemma count_links_suffix (a b : str) :
  count (lit "](") (a ++ b) <= 5 -> count (lit "](") b <= 5.
Proof.
  rewrite !count_link_pairs. pose proof (link_pairs_app a b). lia.
Qed.

Lemma keep_links (line : str) :
  keep line = true -> count (lit "](") line <= 5.
Proof.
  unfold keep, link_noise. intros H.
  apply andb_true_iff in H as [_ H]. apply negb_true_iff in H.
  apply Nat.ltb_ge in H. exact H.
Qed.

Lemma link_noise_spec (line : str) :
  link_noise line = false <-> count (lit "](") line <= 5.
Proof. unfold link_noise. apply Nat.ltb_ge. Qed.

End Links.

(** C6: a line with more than 5 occurrences of "](" is never among the
    lines kept, and no line of the output has more than 5; a line with 5 or
    fewer passes this rule: it is kept exactly when the navigation rule lets
    it through, and then every such line of the section is kept. *)
Theorem link_dense_lines_dropped :
  (forall (m line : str),
      5 < count (lit "](") line -> ~ In line (cleaned_lines m)) /\
  (forall m : str,
      Forall (fun l => count (lit "](") l <= 5)
             (split NL (clean_terraform_docs m))) /\
  (forall line : str,
      count (lit "](") line <= 5 ->
      link_noise line = false /\ keep line = negb (nav_noise line)) /\
  (forall (m line : str),
      count (lit "](") line <= 5 -> nav_noise line = false ->
      In line (doc_section (split NL m)) -> In line (cleaned_lines m)).
Proof.
  split; [|split; [|split]].
  - intros m line Hc Hin. apply in_cleaned_lines in Hin as [_ Hk].
    apply keep_links in Hk. lia.
  - intros m. unfold clean_terraform_docs.
    apply (lines_normalize (fun l => count (lit "](") l <= 5)).
    + rewrite count_link_pairs. simpl. lia.
    + exact count_links_prefix.
    + exact count_links_suffix.
    + apply cleaned_lines_free.
    + apply Forall_forall. intros l Hl.
      apply in_cleaned_lines in Hl as [_ Hk]. now apply keep_links.
  - intros line Hc. apply link_noise_spec in Hc. unfold keep.
    rewrite Hc. split; [reflexivity|]. now rewrite andb_true_r.
  - intros m line Hc Hn Hin. apply in_cleaned_lines.
    split; [assumption|]. apply link_noise_spec in Hc. unfold keep.
    now rewrite Hc, Hn.
Qed.

Lemma link_dense_lines_dropped_witness :
  ~ In (lit "[a](b)[a](b)[a](b)[a](b)[a](b)[a](b)")
       (cleaned_lines (lit "intro\n[a](b)[a](b)[a](b)[a](b)[a](b)[a](b)")) /\
  In (lit "[a](b)[a](b)[a](b)[a](b)[a](b)")
     (cleaned_lines (lit "intro\n[a](b)[a](b)[a](b)[a](b)[a](b)")).
Proof.
  split.
  - apply (proj1 link_dense_lines_dropped). vm_compute. lia.
  - apply (proj2 (proj2 (proj2 link_dense_lines_dropped))).
    + vm_compute. lia.
    + vm_compute. reflexivity.
    + vm_compute. tauto.
Defined.

(** C7, as the program has it: a line with a navigation phrase and fewer
    than 150 characters is never among the lines kept; one of 150
    characters or more is not dropped by this rule, and is kept exactly when
    it lies in the section between the boundaries and has at most 5 links. *)
Theorem navigation_lines_length_guard :
  forall line : str,
    existsb (fun pattern => contains pattern line) skip_patterns = true ->
    (length line < 150 -> forall m : str, ~ In line (cleaned_lines m)) /\
    (150 <= length line ->
       nav_noise line = false /\
       forall m : str,
         In line (cleaned_lines m) <->
         In line (doc_section (split NL m)) /\ count (lit "](") line <= 5).
Proof.
  intros line Hnav. split.
  - intros Hlen m Hin. apply in_cleaned_lines in Hin as [_ Hk].
    unfold keep, nav_noise in Hk. rewrite Hnav in Hk.
    apply Nat.ltb_lt in Hlen. rewrite Hlen in Hk. discriminate.
  - intros Hlen.
    assert (Hn : nav_noise line = false).
    { unfold nav_noise. apply Nat.ltb_ge in Hlen. now rewrite Hlen, andb_false_r. }
    split; [exact Hn|]. intros m. rewrite in_cleaned_lines.
    unfold keep. rewrite Hn. cbn [negb andb].
    rewrite negb_true_iff, link_noise_spec. reflexivity.
Qed.

Lemma navigation_lines_length_guard_witness :
  ~ In (lit "Browse modules") (cleaned_lines short_navigation_page) /\
  In long_plain_navigation_line (cleaned_lines long_plain_navigation_line).
Proof.
  split.
  - apply (navigation_lines_length_guard (lit "Browse modules")).
    + vm_compute. reflexivity.
    + apply Nat.ltb_lt. vm_compute. reflexivity.
  - destruct (navigation_lines_length_guard long_plain_navigation_line)
      as [_ H].
    + vm_compute. reflexivity.
    + destruct H as [_ H].
      * apply Nat.leb_le. vm_compute. reflexivity.
      * apply H. split; [vm_compute; tauto|].
        apply Nat.leb_le. vm_compute. reflexivity.
Defined.

(** Against C7 as the design document states it: this line holds the
    navigation phrase "Browse" and has 162 characters, and it is not
    retained: it has six links. *)
Lemma long_navigation_line_dropped :
  existsb (fun pattern => contains pattern long_navigation_line)
          skip_patterns = true /\
  length long_navigation_line = 162 /\
  In long_navigation_line (doc_section (split NL long_navigation_line)) /\
  cleaned_lines long_navigation_line = [] /\
  clean_terraform_docs long_navigation_line = [].
Proof.
  split; [vm_compute; reflexivity|].
  split; [vm_compute; reflexivity|].
  split; [vm_compute; tauto|].
  split; vm_compute; reflexivity.
Qed.

(** ** The scrape operation *)

Section ScrapeTheorems.

Variable arun : nat -> str -> crawl.
Variable request : ScrapeRequest.

Lemma scrape_url_calls :
  snd (scrape_url arun request) = [full_url request].
Proof.
  unfold scrape_url, try_block.
  destruct (arun 0 (full_url request)) as [msg|result]; [reflexivity|].
  destruct (result_success result); simpl; [|reflexivity].
  destruct (markdown_v2 result) as [raw|]; [|reflexivity].
  destruct (length (clean_terraform_docs raw) <? 200); reflexivity.
Qed.



End ScrapeTheorems.




(** The detail of the error for a measured length of 50. *)
Example too_short_detail_50 :
  too_short_detail 50 =
  lit "Extracted content too short (50 chars). Page may not have loaded properly.".
Proof. vm_compute. reflexivity. Qed.




(** C4: every [ScrapeResponse] that [scrape_url] returns either has
    [success=true] and then its markdown is a cleaned text, non-empty and of
    at least 200 characters, or has [success=false] and then its markdown is
    empty and its error is set. *)
Theorem scrape_response_invariant :
  forall (arun : nat -> str -> crawl) (request : ScrapeRequest)
         (response : ScrapeResponse),
    fst (scrape_url arun request) = Returns response ->
    (success response = true ->
       markdown response <> [] /\ 200 <= length (markdown response) /\
       exists raw, markdown response = clean_terraform_docs raw) /\
    (success response = false ->
       markdown response = [] /\ error response <> None).
Proof.
  intros arun request response. unfold scrape_url, try_block.
  destruct (arun 0 (full_url request)) as [msg|result].
  - simpl. intros H; injection H as <-. simpl.
    split; [discriminate|]. intros _. split; [reflexivity|discriminate].
  - destruct (result_success result); simpl.
    2:{ discriminate. }
    destruct (markdown_v2 result) as [raw|]; simpl.
    2:{ intros H; injection H as <-. simpl.
        split; [discriminate|]. intros _. split; [reflexivity|discriminate]. }
    destruct (Nat.ltb_spec (length (clean_terraform_docs raw)) 200) as [Hlt|Hge];
      simpl; [discriminate|].
    intros H; injection H as <-. simpl.
    split; [|discriminate]. intros _. split; [|split].
    + intros Hnil. rewrite Hnil in Hge. simpl in Hge. lia.
    + exact Hge.
    + now exists raw.
Qed.

Lemma scrape_response_invariant_witness :
  (markdown response_broken = [] /\ error response_broken <> None) /\
  (markdown response_letters <> [] /\
   200 <= length (markdown response_letters) /\
   exists raw, markdown response_letters = clean_terraform_docs raw).
Proof.
  split.
  - apply (scrape_response_invariant arun_broken request_path response_broken).
    + vm_compute. reflexivity.
    + reflexivity.
  - apply (scrape_response_invariant (arun_letters 300) request_path
             response_letters).
    + vm_compute. reflexivity.
    + reflexivity.
Defined.

(** ** Further properties of [clean_terraform_docs] *)

Section Characters.

Lemma in_split_line (sep : char) (s l : str) (c : char) :
  In l (split sep s) -> In c l -> In c s.
Proof.
  revert l; induction s as [|d s IH]; intros l Hl Hc.
  - simpl in Hl. destruct Hl as [<-|[]]. exact Hc.
  - pose proof (split_not_nil sep s) as Hn.
    destruct (N.eqb d sep) eqn:Hd.
    + cbn [split] in Hl. rewrite Hd in Hl. destruct Hl as [<-|Hl].
      * destruct Hc.
      * right. now apply (IH l).
    + rewrite split_cons_other in Hl by assumption.
      destruct (split sep s) as [|l0 ls]; [contradiction|].
      simpl in Hl. destruct Hl as [<-|Hl].
      * destruct Hc as [<-|Hc]; [now left|].
        right. apply (IH l0); [now left|assumption].
      * right. apply (IH l); [now right|assumption].
Qed.

Lemma in_join (sep : char) (ls : list str) (c : char) :
  In c (join [sep] ls) ->
  (exists l, In l ls /\ In c l) \/ (c = sep /\ 2 <= length ls).
Proof.
  induction ls as [|l ls IH]; [intros []|].
  destruct ls as [|l' ls].
  - simpl. intros H. left. exists l. split; [now left|assumption].
  - rewrite join_cons by discriminate. intros H.
    apply in_app_or in H as [H|H].
    + left. exists l. split; [now left|assumption].
    + destruct H as [<-|H]; [right; split; [reflexivity|simpl; lia]|].
      destruct (IH H) as [[k [Hk Hc]]|[-> _]].
      * left. exists k. split; [now right|assumption].
      * right. split; [reflexivity|simpl; lia].
Qed.

Lemma in_emit_run (run : nat) (c : char) :
  In c (emit_run run) -> c = NL /\ 1 <= run.
Proof.
  unfold emit_run. destruct (Nat.leb_spec 3 run) as [H|H].
  - intros [<-|[<-|[]]]; split; (reflexivity || lia).
  - intros Hc. apply repeat_spec in Hc as Heq. split; [assumption|].
    destruct run; [destruct Hc|lia].
Qed.

Lemma in_sub_newlines (t : str) (run : nat) (c : char) :
  In c (sub_newlines run t) -> In c t \/ (c = NL /\ 1 <= run).
Proof.
  revert run; induction t as [|d t IH]; intros run; cbn [sub_newlines].
  - intros H. right. now apply in_emit_run.
  - destruct (N.eqb_spec d NL) as [->|Hd].
    + intros H. destruct (IH _ H) as [H1|[-> _]]; left; [now right|now left].
    + intros H. apply in_app_or in H as [H|[<-|H]].
      * right. now apply in_emit_run.
      * left. now left.
      * destruct (IH _ H) as [H1|[_ H1]]; [left; now right|lia].
Qed.

Lemma in_strip (s : str) (c : char) : In c (strip s) -> In c s.
Proof.
  intros H. destruct (strip_infix s) as [a [b Hs]]. rewrite Hs.
  apply in_or_app. right. apply in_or_app. now left.
Qed.

Lemma length_filter_le (A : Type) (f : A -> bool) (l : list A) :
  length (filter f l) <= length l.
Proof. induction l as [|x l IH]; simpl; [lia|]. destruct (f x); simpl; lia. Qed.

Lemma length_slice_le (A : Type) (l : list A) (a b : nat) :
  length (slice l a b) <= length l.
Proof.
  unfold slice. rewrite length_firstn, length_skipn. lia.
Qed.

Lemma length_cleaned_lines (m : str) :
  length (cleaned_lines m) <= length (split NL m).
Proof.
  rewrite cleaned_lines_filter. unfold doc_section.
  pose proof (length_filter_le _ keep
                (slice (split NL m) (doc_start (split NL m))
                   (doc_end (split NL m) (doc_start (split NL m))))).
  pose proof (length_slice_le _ (split NL m) (doc_start (split NL m))
                (doc_end (split NL m) (doc_start (split NL m)))).
  lia.
Qed.

Lemma in_joined_lines (m : str) (c : char) :
  In c (join [NL] (cleaned_lines m)) -> In c m.
Proof.
  intros H. apply in_join in H as [[l [Hl Hc]]|[-> Hlen]].
  - apply in_cleaned_lines in Hl as [Hl _]. apply in_slice in Hl.
    now apply (in_split_line NL m l).
  - destruct (in_dec N.eq_dec NL m) as [Hin|Hout]; [assumption|].
    pose proof (length_cleaned_lines m) as Hle.
    rewrite (split_free NL m Hout) in Hle. simpl in Hle. lia.
Qed.

Lemma in_clean (m : str) (c : char) :
  In c (clean_terraform_docs m) -> In c m.
Proof.
  unfold clean_terraform_docs, normalize, re_sub_newlines. intros H.
  apply in_strip in H. apply in_sub_newlines in H as [H|[_ H]]; [|lia].
  now apply in_joined_lines.
Qed.

Lemma blank_spec (s : str) :
  blank s = true <-> (forall c, In c s -> isspace c = true).
Proof. unfold blank. apply forallb_forall. Qed.

Lemma leading_space_blank (s : str) :
  blank s = true -> leading_space s = false -> s = [].
Proof.
  destruct s as [|c s]; [reflexivity|]. simpl.
  intros H. apply andb_true_iff in H as [H _]. congruence.
Qed.

End Characters.

(** X1: the cleaned text holds no character that the raw text does not
    hold. *)
Theorem clean_adds_no_character :
  forall (m : str) (c : char), In c (clean_terraform_docs m) -> In c m.
Proof.
  intros m c H. unfold clean_terraform_docs, normalize, re_sub_newlines in H.
  apply in_strip in H. apply in_sub_newlines in H as [H|[_ H]]; [|lia].
  apply in_join in H as [[l [Hl Hc]]|[-> Hlen]].
  - apply in_cleaned_lines in Hl as [Hl _]. apply in_slice in Hl.
    now apply (in_split_line NL m l).
  - destruct (in_dec N.eq_dec NL m) as [Hin|Hout]; [assumption|].
    pose proof (length_cleaned_lines m) as Hle.
    rewrite (split_free NL m Hout) in Hle. simpl in Hle. lia.
Qed.

Lemma clean_adds_no_character_witness : In 35%N heading_page.
Proof.
  apply (clean_adds_no_character heading_page 35%N). vm_compute. tauto.
Defined.

(** X2: a raw text of white space only, the empty text among them, is
    cleaned to the empty text. *)
Theorem clean_of_blank :
  forall m : str, blank m = true -> clean_terraform_docs m = [].
Proof.
  intros m Hm. apply leading_space_blank.
  - apply blank_spec. intros c Hc. apply in_clean in Hc.
    now apply (proj1 (blank_spec m) Hm).
  - unfold clean_terraform_docs, normalize. apply strip_leading.
Qed.

Lemma clean_of_blank_witness : clean_terraform_docs blank_page = [].
Proof. apply clean_of_blank. vm_compute. reflexivity. Defined.

Section Pieces.

Variable m : str.




End Pieces.



Section SectionShape.

Lemma skipn_nth_cons (A : Type) (d : A) (l : list A) (n : nat) :
  n < length l -> skipn n l = nth n l d :: skipn (S n) l.
Proof.
  revert n; induction l as [|x l IH]; intros n Hn; [simpl in Hn; lia|].
  destruct n as [|n]; [reflexivity|].
  simpl in Hn. cbn [skipn nth]. apply IH. lia.
Qed.

Lemma doc_start_lt (lines : list str) :
  lines <> [] -> doc_start lines < length lines.
Proof.
  intros Hne. unfold doc_start.
  destruct (first_index start_marker lines) as [i|] eqn:H.
  - now apply first_index_bound in H.
  - destruct lines; [contradiction|simpl; lia].
Qed.

Lemma doc_end_gt (lines : list str) (ds : nat) :
  ds < length lines -> ds < doc_end lines ds <= length lines.
Proof.
  intros H. destruct (doc_end_spec lines ds) as [[H1 _]|[H1 _]]; lia.
Qed.

Lemma doc_section_head (lines : list str) :
  lines <> [] ->
  doc_section lines =
    nth (doc_start lines) lines [] ::
    firstn (doc_end lines (doc_start lines) - doc_start lines - 1)
           (skipn (S (doc_start lines)) lines).
Proof.
  intros Hne. pose proof (doc_start_lt lines Hne) as Hs.
  pose proof (doc_end_gt lines _ Hs) as He.
  unfold doc_section, slice. cbv zeta.
  rewrite (skipn_nth_cons str [] lines _ Hs).
  destruct (doc_end lines (doc_start lines) - doc_start lines) as [|k] eqn:Hk;
    [lia|].
  cbn [firstn]. now rewrite Nat.sub_succ, Nat.sub_0_r.
Qed.

Lemma doc_section_to_end (lines : list str) :
  (forall j, doc_start lines < j < length lines ->
             footer_marker (nth j lines []) = false) ->
  doc_section lines = skipn (doc_start lines) lines.
Proof.
  intros H. unfold doc_section, slice. cbv zeta.
  rewrite (doc_end_none lines _ H).
  apply firstn_all2. rewrite length_skipn. lia.
Qed.

End SectionShape.

(** X4: the end boundary always lies after the start boundary, so the
    section between them is never empty and begins with the line of the
    start boundary. *)
Theorem section_begins_at_start_boundary :
  forall m : str,
    doc_start (split NL m) < doc_end (split NL m) (doc_start (split NL m)) /\
    doc_end (split NL m) (doc_start (split NL m)) <= length (split NL m) /\
    hd_error (doc_section (split NL m)) =
      Some (nth (doc_start (split NL m)) (split NL m) []).
Proof.
  intros m. pose proof (split_not_nil NL m) as Hne.
  pose proof (doc_end_gt _ _ (doc_start_lt _ Hne)) as [H1 H2].
  split; [exact H1|]. split; [exact H2|].
  now rewrite doc_section_head.
Qed.

(** X5: when no line after the start boundary holds a footer marker, nothing
    is cut at the bottom; a marker on the line of the start boundary or
    above it cuts nothing. *)
Theorem no_footer_after_start_keeps_rest :
  forall m : str,
    (forall j, doc_start (split NL m) < j < length (split NL m) ->
               footer_marker (nth j (split NL m) []) = false) ->
    doc_end (split NL m) (doc_start (split NL m)) = length (split NL m) /\
    cleaned_lines m =
      filter keep (skipn (doc_start (split NL m)) (split NL m)).
Proof.
  intros m H. split; [now apply doc_end_none|].
  now rewrite cleaned_lines_filter, doc_section_to_end.
Qed.

Lemma no_footer_after_start_keeps_rest_witness :
  doc_end (split NL (lit "HashiCorp\n# azurerm_foo by HashiCorp\nbody"))
    (doc_start (split NL (lit "HashiCorp\n# azurerm_foo by HashiCorp\nbody")))
  = length (split NL (lit "HashiCorp\n# azurerm_foo by HashiCorp\nbody")) /\
  cleaned_lines (lit "HashiCorp\n# azurerm_foo by HashiCorp\nbody") =
    filter keep
      (skipn
         (doc_start (split NL (lit "HashiCorp\n# azurerm_foo by HashiCorp\nbody")))
         (split NL (lit "HashiCorp\n# azurerm_foo by HashiCorp\nbody"))).
Proof.
  apply no_footer_after_start_keeps_rest.
  intros j. vm_compute split. vm_compute doc_start. simpl length.
  intros Hj. assert (j = 2) as -> by lia. vm_compute. reflexivity.
Defined.

Section Subsequences.

Variable A : Type.

Lemma subseq_refl (l : list A) : subseq l l.
Proof. induction l; constructor; assumption. Qed.

Lemma subseq_nil_l (l : list A) : subseq [] l.
Proof. induction l; constructor; assumption. Qed.

Lemma subseq_trans (a b c : list A) : subseq a b -> subseq b c -> subseq a c.
Proof.
  intros Hab Hbc. revert a Hab.
  induction Hbc as [|x b c Hbc IH|x b c Hbc IH]; intros a Hab.
  - exact Hab.
  - apply subseq_skip. now apply IH.
  - inversion Hab; subst.
    + apply subseq_skip. now apply IH.
    + apply subseq_take. now apply IH.
Qed.

Lemma subseq_filter (f : A -> bool) (l : list A) : subseq (filter f l) l.
Proof.
  induction l as [|x l IH]; simpl; [constructor|].
  destruct (f x); constructor; assumption.
Qed.

Lemma subseq_firstn (n : nat) (l : list A) : subseq (firstn n l) l.
Proof.
  revert n; induction l as [|x l IH]; intros n.
  - rewrite firstn_nil. constructor.
  - destruct n as [|n]; simpl.
    + apply subseq_nil_l.
    + apply subseq_take, IH.
Qed.

Lemma subseq_skipn (n : nat) (l : list A) : subseq (skipn n l) l.
Proof.
  revert n; induction l as [|x l IH]; intros n.
  - rewrite skipn_nil. constructor.
  - destruct n as [|n]; simpl.
    + apply subseq_refl.
    + apply subseq_skip, IH.
Qed.

End Subsequences.

(** X6: the lines kept are lines of the raw text, in the order of the raw
    text, none of them twice: they are the raw lines with some left out. *)
Theorem cleaned_lines_subsequence :
  forall m : str, subseq (cleaned_lines m) (split NL m).
Proof.
  intros m. rewrite cleaned_lines_filter. unfold doc_section, slice.
  cbv zeta. eapply subseq_trans; [apply subseq_filter|].
  eapply subseq_trans; [apply subseq_firstn|]. apply subseq_skipn.
Qed.

Section FixedPoints.

Lemma nth_tl (A : Type) (d : A) (l : list A) (j : nat) :
  nth (S j) l d = nth j (tl l) d.
Proof. destruct l; [now destruct j|reflexivity]. Qed.

Lemma footer_after_first (lines : list str) :
  Forall (fun l => footer_marker l = false) (tl lines) ->
  forall j, 0 < j < length lines -> footer_marker (nth j lines []) = false.
Proof.
  intros H j Hj. destruct j as [|j]; [lia|]. rewrite nth_tl.
  rewrite Forall_forall in H. apply H, nth_In.
  destruct lines; simpl in *; lia.
Qed.

(** A text whose start boundary is its first line, with no footer marker
    below that line, no noise line, no run of three newlines and no white
    space at its ends, is left as it is. *)
Lemma clean_fixed (o : str) :
  doc_start (split NL o) = 0 ->
  Forall (fun l => footer_marker l = false) (tl (split NL o)) ->
  Forall (fun l => keep l = true) (split NL o) ->
  triple_newline o = false ->
  leading_space o = false -> trailing_space o = false ->
  clean_terraform_docs o = o.
Proof.
  intros Hs Hf Hk Ht Hl Hr.
  unfold clean_terraform_docs, normalize.
  rewrite cleaned_lines_filter. unfold doc_section. cbv zeta. rewrite Hs.
  rewrite doc_end_none by now apply footer_after_first.
  rewrite slice_whole, filter_all by assumption.
  rewrite join_split, re_sub_newlines_id by assumption.
  now apply strip_id.
Qed.

Lemma clean_no_triple (m : str) :
  triple_newline (clean_terraform_docs m) = false.
Proof.
  unfold clean_terraform_docs, normalize, re_sub_newlines.
  apply triple_newline_strip, sub_newlines_no_triple.
Qed.

End FixedPoints.

(** X7: a document that begins at its start boundary (a heading on its first
    line, or no start marker at all), has no footer marker below its first
    line, no line that the filter drops, no run of three newlines and no
    white space at its ends is returned unchanged. *)
Theorem clean_fixed_point :
  forall o : str,
    doc_start (split NL o) = 0 ->
    Forall (fun l => footer_marker l = false) (tl (split NL o)) ->
    Forall (fun l => keep l = true) (split NL o) ->
    triple_newline o = false ->
    leading_space o = false -> trailing_space o = false ->
    clean_terraform_docs o = o.
Proof.
  intros o Hs Hf Hk Ht Hl Hr.
  assert (Hsec : doc_section (split NL o) = split NL o).
  { unfold doc_section. cbv zeta. rewrite Hs.
    rewrite doc_end_none by now apply footer_after_first.
    apply slice_whole. }
  unfold clean_terraform_docs, normalize.
  rewrite cleaned_lines_filter, Hsec, filter_all by assumption.
  rewrite join_split, re_sub_newlines_id by assumption.
  now apply strip_id.
Qed.

Lemma clean_fixed_point_witness :
  clean_terraform_docs heading_page_cleaned = heading_page_cleaned.
Proof.
  apply clean_fixed_point.
  - vm_compute. reflexivity.
  - vm_compute split. cbn [tl]. each_line.
  - vm_compute split. each_line.
  - vm_compute. reflexivity.
  - vm_compute. reflexivity.
  - vm_compute. reflexivity.
Defined.

(** X8: cleaning twice gives what cleaning once gives whenever the cleaned
    text begins at its own start boundary, has no footer marker below its
    first line and no line that the filter drops; without these conditions
    it need not: the second cleaning of the first scenario cuts the line
    "HashiCorp" that the first one left. *)
Theorem clean_twice :
  (forall m : str,
      doc_start (split NL (clean_terraform_docs m)) = 0 ->
      Forall (fun l => footer_marker l = false)
             (tl (split NL (clean_terraform_docs m))) ->
      Forall (fun l => keep l = true) (split NL (clean_terraform_docs m)) ->
      clean_terraform_docs (clean_terraform_docs m) = clean_terraform_docs m) /\
  ~ (forall m : str,
        clean_terraform_docs (clean_terraform_docs m) = clean_terraform_docs m).
Proof.
  split.
  - intros m Hs Hf Hk. apply clean_fixed; try assumption.
    + apply clean_no_triple.
    + unfold clean_terraform_docs, normalize. apply strip_leading.
    + unfold clean_terraform_docs, normalize. apply strip_trailing.
  - intros H. specialize (H scenario_one). vm_compute in H. discriminate H.
Qed.

Lemma clean_twice_witness :
  clean_terraform_docs (clean_terraform_docs heading_page) =
  clean_terraform_docs heading_page.
Proof.
  apply (proj1 clean_twice).
  - vm_compute. reflexivity.
  - vm_compute split. cbn [tl]. each_line.
  - vm_compute split. each_line.
Defined.

Example heading_page_is_cleaned :
  clean_terraform_docs heading_page = heading_page_cleaned.
Proof. vm_compute. reflexivity. Qed.

Section HeadingFirst.

Lemma lstrip_app_keep (a b : str) :
  b <> [] -> leading_space b = false -> lstrip (a ++ b) = lstrip a ++ b.
Proof.
  intros Hb Hl. induction a as [|c a IH]; simpl.
  - now apply lstrip_id.
  - destruct (isspace c); [exact IH|reflexivity].
Qed.

Lemma rstrip_app_keep (p x : str) :
  p <> [] -> trailing_space p = false -> rstrip (p ++ x) = p ++ rstrip x.
Proof.
  intros Hp Ht. unfold rstrip. rewrite rev_app_distr.
  rewrite lstrip_app_keep.
  - now rewrite rev_app_distr, rev_involutive.
  - intros H. apply (f_equal (@rev char)) in H.
    rewrite rev_involutive in H. contradiction.
  - exact Ht.
Qed.

Lemma strip_app_keep (p x : str) :
  p <> [] -> leading_space p = false -> trailing_space p = false ->
  strip (p ++ x) = p ++ rstrip x.
Proof.
  intros Hp Hl Ht. unfold strip.
  rewrite lstrip_id by now rewrite leading_space_app.
  now apply rstrip_app_keep.
Qed.

Lemma sub_newlines_prefix (p x : str) :
  p <> [] -> ~ In NL p ->
  sub_newlines 0 (p ++ x) = p ++ sub_newlines 0 x.
Proof.
  intros Hp Hfree.
  rewrite sub_newlines_app by (assumption || now apply ends_with_newline_free).
  f_equal. apply (re_sub_newlines_id p). now apply triple_newline_free.
Qed.

Lemma normalize_prefix (p x : str) :
  p <> [] -> ~ In NL p ->
  leading_space p = false -> trailing_space p = false ->
  normalize (p ++ x) = p ++ rstrip (sub_newlines 0 x).
Proof.
  intros Hp Hfree Hl Ht. unfold normalize, re_sub_newlines.
  rewrite sub_newlines_prefix by assumption.
  now apply strip_app_keep.
Qed.

Lemma join_head (sep l : str) (ls : list str) :
  exists y, join sep (l :: ls) = l ++ y.
Proof.
  destruct ls as [|l' ls].
  - exists []. simpl. now rewrite app_nil_r.
  - exists (sep ++ join sep (l' :: ls)). reflexivity.
Qed.

Lemma cleaned_lines_head (m : str) :
  keep (nth (doc_start (split NL m)) (split NL m) []) = true ->
  exists rest,
    cleaned_lines m = nth (doc_start (split NL m)) (split NL m) [] :: rest.
Proof.
  intros Hk. rewrite cleaned_lines_filter.
  rewrite doc_section_head by apply split_not_nil.
  cbn [filter]. rewrite Hk. eexists. reflexivity.
Qed.

Lemma clean_starts_with (pfx m : str) :
  pfx <> [] -> ~ In NL pfx ->
  leading_space pfx = false -> trailing_space pfx = false ->
  startswith pfx (nth (doc_start (split NL m)) (split NL m) []) = true ->
  keep (nth (doc_start (split NL m)) (split NL m) []) = true ->
  startswith pfx (clean_terraform_docs m) = true.
Proof.
  intros Hp Hfree Hl Ht Hs Hk.
  destruct (cleaned_lines_head m Hk) as [rest Hc].
  apply startswith_spec in Hs as [h' Hh].
  unfold clean_terraform_docs. rewrite Hc.
  destruct (join_head [NL] (nth (doc_start (split NL m)) (split NL m) []) rest)
    as [y Hy].
  rewrite Hy, Hh, <- app_assoc.
  rewrite normalize_prefix by assumption.
  apply startswith_app.
Qed.

End HeadingFirst.

(** X9: when the line of the start boundary is a heading that the filter
    keeps, the cleaned text begins with that heading's prefix: with
    "# azurerm_" or with "# data.azurerm_". *)
Theorem cleaned_text_begins_with_heading :
  forall (m pfx : str),
    In pfx [lit "# azurerm_"; lit "# data.azurerm_"] ->
    startswith pfx (nth (doc_start (split NL m)) (split NL m) []) = true ->
    keep (nth (doc_start (split NL m)) (split NL m) []) = true ->
    startswith pfx (clean_terraform_docs m) = true.
Proof.
  intros m pfx Hin. apply clean_starts_with.
  - destruct Hin as [<-|[<-|[]]]; vm_compute; discriminate.
  - destruct Hin as [<-|[<-|[]]]; vm_compute; intuition discriminate.
  - destruct Hin as [<-|[<-|[]]]; vm_compute; reflexivity.
  - destruct Hin as [<-|[<-|[]]]; vm_compute; reflexivity.
Qed.

Lemma cleaned_text_begins_with_heading_witness :
  startswith (lit "# azurerm_") (clean_terraform_docs heading_page) = true.
Proof.
  apply cleaned_text_begins_with_heading.
  - now left.
  - vm_compute. reflexivity.
  - vm_compute. reflexivity.
Defined.

(** ** Further properties of [scrape_url] *)

Section ScrapeCases.

Variable arun : nat -> str -> crawl.
Variable request : ScrapeRequest.

(** The four ways a call ends, by what the crawler does. *)
Lemma scrape_url_raised (message : str) :
  arun 0 (full_url request) = CrawlRaises message ->
  fst (scrape_url arun request) =
    Returns {| markdown := []; success := false; error := Some message |}.
Proof. intros H. unfold scrape_url, try_block. now rewrite H. Qed.

Lemma scrape_url_failed (result : CrawlResult) :
  arun 0 (full_url request) = CrawlReturns result ->
  result_success result = false ->
  fst (scrape_url arun request) =
    Raises 500 (lit "Crawl failed: " ++ fmt (error_message result)).
Proof. intros H Hf. unfold scrape_url, try_block. now rewrite H, Hf. Qed.

Lemma scrape_url_no_markdown (result : CrawlResult) :
  arun 0 (full_url request) = CrawlReturns result ->
  result_success result = true ->
  markdown_v2 result = None ->
  fst (scrape_url arun request) =
    Returns {| markdown := []; success := false;
               error := Some (lit "'NoneType' object has no attribute 'raw_markdown'") |}.
Proof.
  intros H Hs Hm. unfold scrape_url, try_block. now rewrite H, Hs, Hm.
Qed.

Lemma scrape_url_short (result : CrawlResult) (raw : str) :
  arun 0 (full_url request) = CrawlReturns result ->
  result_success result = true ->
  markdown_v2 result = Some raw ->
  length (clean_terraform_docs raw) < 200 ->
  fst (scrape_url arun request) =
    Raises 500 (too_short_detail (length (clean_terraform_docs raw))).
Proof.
  intros H Hs Hm Hl. unfold scrape_url, try_block. rewrite H, Hs, Hm.
  apply Nat.ltb_lt in Hl. cbn [negb]. now rewrite Hl.
Qed.

Lemma scrape_url_ok (result : CrawlResult) (raw : str) :
  arun 0 (full_url request) = CrawlReturns result ->
  result_success result = true ->
  markdown_v2 result = Some raw ->
  200 <= length (clean_terraform_docs raw) ->
  fst (scrape_url arun request) =
    Returns {| markdown := clean_terraform_docs raw; success := true;
               error := None |}.
Proof.
  intros H Hs Hm Hl. unfold scrape_url, try_block. rewrite H, Hs, Hm.
  apply Nat.ltb_ge in Hl. cbn [negb]. now rewrite Hl.
Qed.

(** One of the four cases always applies. *)
Lemma scrape_url_case :
  (exists message, arun 0 (full_url request) = CrawlRaises message) \/
  (exists result,
      arun 0 (full_url request) = CrawlReturns result /\
      (result_success result = false \/
       (result_success result = true /\ markdown_v2 result = None) \/
       (exists raw,
           result_success result = true /\ markdown_v2 result = Some raw /\
           length (clean_terraform_docs raw) < 200) \/
       (exists raw,
           result_success result = true /\ markdown_v2 result = Some raw /\
           200 <= length (clean_terraform_docs raw)))).
Proof.
  destruct (arun 0 (full_url request)) as [message|result].
  - left. now exists message.
  - right. exists result. split; [reflexivity|].
    destruct (result_success result); [|now left]. right.
    destruct (markdown_v2 result) as [raw|]; [|now left]. right.
    destruct (Nat.lt_ge_cases (length (clean_terraform_docs raw)) 200).
    + left. now exists raw.
    + right. now exists raw.
Qed.

End ScrapeCases.






Section ScrapeCalls.

Lemma full_url_absolute (request : ScrapeRequest) :
  startswith (lit "/") (full_url request) = false.
Proof.
  unfold full_url. destruct (startswith (lit "/") (url request)) eqn:H.
  - reflexivity.
  - exact H.
Qed.

Lemma full_url_fixed (request : ScrapeRequest) :
  full_url {| url := full_url request |} = full_url request.
Proof.
  unfold full_url at 1. cbn [url]. now rewrite full_url_absolute.
Qed.

Lemma scrape_url_first_call (arun arun' : nat -> str -> crawl)
      (request request' : ScrapeRequest) :
  full_url request = full_url request' ->
  arun 0 (full_url request) = arun' 0 (full_url request) ->
  scrape_url arun request = scrape_url arun' request'.
Proof.
  intros Hu Ha. unfold scrape_url, try_block. now rewrite <- Hu, Ha.
Qed.

End ScrapeCalls.

(** X14: a URL that begins with "/" is resolved against the registry host,
    any other is used as it is; the resolved URL does not begin with "/",
    so resolving it again changes nothing, and a request for the resolved
    URL is answered as the request for the path is. *)
Theorem full_url_resolution :
  forall (arun : nat -> str -> crawl) (request : ScrapeRequest),
    (startswith (lit "/") (url request) = true ->
     full_url request = lit "https://registry.terraform.io" ++ url request) /\
    (startswith (lit "/") (url request) = false ->
     full_url request = url request) /\
    startswith (lit "/") (full_url request) = false /\
    full_url {| url := full_url request |} = full_url request /\
    scrape_url arun {| url := full_url request |} = scrape_url arun request.
Proof.
  intros arun request.
  split; [unfold full_url; now intros ->|].
  split; [unfold full_url; now intros ->|].
  split; [apply full_url_absolute|].
  split; [apply full_url_fixed|].
  apply scrape_url_first_call; [apply full_url_fixed|].
  now rewrite full_url_fixed.
Qed.

Lemma full_url_resolution_witness :
  full_url request_path =
    lit "https://registry.terraform.io" ++ url request_path /\
  full_url request_absolute = url request_absolute.
Proof.
  split.
  - destruct (full_url_resolution arun_broken request_path) as [H _].
    apply H. vm_compute. reflexivity.
  - destruct (full_url_resolution arun_broken request_absolute) as [_ [H _]].
    apply H. vm_compute. reflexivity.
Defined.

Section ScrapeMarkdown.

Lemma clean_lines_links (m : str) :
  Forall (fun l => count (lit "](") l <= 5)
         (split NL (clean_terraform_docs m)).
Proof.
  unfold clean_terraform_docs.
  apply (lines_normalize (fun l => count (lit "](") l <= 5)).
  - rewrite count_link_pairs. simpl. lia.
  - exact count_links_prefix.
  - exact count_links_suffix.
  - apply cleaned_lines_free.
  - apply Forall_forall. intros l Hl.
    apply in_cleaned_lines in Hl as [_ Hk]. now apply keep_links.
Qed.

Lemma returned_markdown (arun : nat -> str -> crawl) (request : ScrapeRequest)
      (response : ScrapeResponse) :
  fst (scrape_url arun request) = Returns response ->
  markdown response = [] \/
  exists raw, markdown response = clean_terraform_docs raw.
Proof.
  intros Hr.
  destruct (scrape_url_case arun request)
    as [[message H]|[result [H [Hf|[[Ht Hm]|[[raw [Ht [Hm Hl]]]|[raw [Ht [Hm Hl]]]]]]]]].
  - rewrite (scrape_url_raised _ _ _ H) in Hr. injection Hr as <-. now left.
  - rewrite (scrape_url_failed _ _ _ H Hf) in Hr. discriminate Hr.
  - rewrite (scrape_url_no_markdown _ _ _ H Ht Hm) in Hr. injection Hr as <-.
    now left.
  - rewrite (scrape_url_short _ _ _ _ H Ht Hm Hl) in Hr. discriminate Hr.
  - rewrite (scrape_url_ok _ _ _ _ H Ht Hm Hl) in Hr. injection Hr as <-.
    right. now exists raw.
Qed.

End ScrapeMarkdown.

(** X15: the markdown of every returned response is normalized: no run of
    three newlines, no white space at its ends, and no line with more than
    5 links. *)
Theorem returned_markdown_is_normalized :
  forall (arun : nat -> str -> crawl) (request : ScrapeRequest)
         (response : ScrapeResponse),
    fst (scrape_url arun request) = Returns response ->
    triple_newline (markdown response) = false /\
    leading_space (markdown response) = false /\
    trailing_space (markdown response) = false /\
    Forall (fun l => count (lit "](") l <= 5)
           (split NL (markdown response)).
Proof.
  intros arun request response Hr.
  destruct (returned_markdown arun request response Hr) as [->|[raw ->]].
  - split; [reflexivity|]. split; [reflexivity|]. split; [reflexivity|].
    constructor; [|constructor]. rewrite count_link_pairs. simpl. lia.
  - split; [apply clean_no_triple|].
    split; [unfold clean_terraform_docs, normalize; apply strip_leading|].
    split; [unfold clean_terraform_docs, normalize; apply strip_trailing|].
    apply clean_lines_links.
Qed.

Lemma returned_markdown_is_normalized_witness :
  triple_newline (markdown response_letters) = false /\
  leading_space (markdown response_letters) = false /\
  trailing_space (markdown response_letters) = false /\
  Forall (fun l => count (lit "](") l <= 5)
         (split NL (markdown response_letters)).
Proof.
  apply (returned_markdown_is_normalized (arun_letters 300) request_path).
  vm_compute. reflexivity.
Defined.



(** ** Noise lines that are no markers *)

Section NoiseLines.

Lemma slice_app_l (A : Type) (l1 l2 : list A) (i b : nat) :
  b <= length l1 -> slice (l1 ++ l2) i b = slice l1 i b.
Proof.
  intros Hb. unfold slice. rewrite skipn_app, firstn_app, length_skipn.
  replace (b - i - (length l1 - i)) with 0 by lia.
  now rewrite firstn_0, app_nil_r.
Qed.

Lemma slice_app_r (A : Type) (l1 l2 : list A) (i b : nat) :
  i <= length l1 <= b ->
  slice (l1 ++ l2) i b = skipn i l1 ++ firstn (b - length l1) l2.
Proof.
  intros Hb. unfold slice. rewrite skipn_app, firstn_app, length_skipn.
  replace (i - length l1) with 0 by lia. cbn [skipn].
  replace (b - i - (length l1 - i)) with (b - length l1) by lia.
  f_equal. apply firstn_all2. rewrite length_skipn. lia.
Qed.

Lemma nth_after_insert (A : Type) (d x : A) (l1 l2 : list A) (j : nat) :
  length l1 < j -> nth j (l1 ++ x :: l2) d = nth (j - 1) (l1 ++ l2) d.
Proof.
  intros Hj. rewrite !app_nth2 by lia.
  replace (j - length l1) with (S (j - 1 - length l1)) by lia.
  reflexivity.
Qed.

Variables (before after : list str) (x : str).
Hypothesis before_not_nil : before <> [].
Hypothesis x_start : start_marker x = false.
Hypothesis x_footer : footer_marker x = false.
Hypothesis x_noise : keep x = false.

Lemma footer_inserted (j : nat) :
  (j < length before ->
   footer_marker (nth j (before ++ after) []) = false) ->
  (length before < j ->
   footer_marker (nth (j - 1) (before ++ after) []) = false) ->
  footer_marker (nth j (before ++ x :: after) []) = false.
Proof.
  intros Hlow Hhigh.
  destruct (Nat.lt_trichotomy j (length before)) as [H|[->|H]].
  - rewrite app_nth1 by assumption. rewrite <- (app_nth1 _ after) by assumption.
    now apply Hlow.
  - now rewrite nth_middle.
  - rewrite nth_after_insert by assumption. now apply Hhigh.
Qed.

(** With the start boundary above the inserted line. *)
Lemma noise_line_below_start (i : nat) :
  i < length before ->
  filter keep (slice (before ++ x :: after) i
                 (doc_end (before ++ x :: after) i)) =
  filter keep (slice (before ++ after) i (doc_end (before ++ after) i)).
Proof.
  intros Hi.
  assert (HL : length (before ++ after) = length before + length after)
    by apply length_app.
  assert (Hlen : length (before ++ x :: after) = S (length (before ++ after))).
  { rewrite !length_app. simpl. lia. }
  assert (Hfilter : forall n,
             filter keep (skipn i before ++ firstn (S n) (x :: after)) =
             filter keep (skipn i before ++ firstn n after)).
  { intros n. rewrite !filter_app. cbn [firstn filter]. now rewrite x_noise. }
  destruct (doc_end_spec (before ++ after) i) as [[He [Hf Hafter]]|[He Hafter]].
  - destruct (Nat.lt_ge_cases (doc_end (before ++ after) i) (length before))
      as [Hlt|Hge].
    + rewrite (doc_end_found (before ++ x :: after) i
                 (doc_end (before ++ after) i)).
      * rewrite !slice_app_l by lia. reflexivity.
      * lia.
      * rewrite app_nth1 by assumption.
        rewrite <- (app_nth1 _ after) by assumption. exact Hf.
      * intros j Hj. apply footer_inserted; intros H; apply Hafter; lia.
    + rewrite (doc_end_found (before ++ x :: after) i
                 (S (doc_end (before ++ after) i))).
      * rewrite !slice_app_r by lia.
        replace (S (doc_end (before ++ after) i) - length before)
          with (S (doc_end (before ++ after) i - length before)) by lia.
        apply Hfilter.
      * lia.
      * rewrite nth_after_insert by lia.
        replace (S (doc_end (before ++ after) i) - 1)
          with (doc_end (before ++ after) i) by lia.
        exact Hf.
      * intros j Hj. apply footer_inserted; intros H; [lia|].
        apply Hafter. lia.
  - rewrite He.
    rewrite (doc_end_none (before ++ x :: after) i).
    + rewrite Hlen. rewrite !slice_app_r by lia.
      replace (S (length (before ++ after)) - length before)
        with (S (length (before ++ after) - length before)) by lia.
      apply Hfilter.
    + intros j Hj. apply footer_inserted; intros H; apply Hafter; lia.
Qed.

(** The inserted line changes nothing of what is kept. *)
Lemma noise_line_kept_lines :
  filter keep (doc_section (before ++ x :: after)) =
  filter keep (doc_section (before ++ after)).
Proof.
  unfold doc_section. cbv zeta. unfold doc_start.
  destruct (first_index start_marker before) as [i|] eqn:Hb.
  - rewrite !(first_index_app_l _ _ before _ i Hb).
    apply noise_line_below_start. now apply first_index_bound in Hb.
  - rewrite !(first_index_app_r _ _ before _ Hb).
    cbn [first_index]. rewrite x_start.
    destruct (first_index start_marker after) as [j|] eqn:Ha.
    + replace (length before + S j) with (length (before ++ [x]) + j)
        by (rewrite length_app; simpl; lia).
      change (before ++ x :: after) with (before ++ [x] ++ after).
      rewrite app_assoc.
      rewrite !doc_end_shift, !slice_shift. reflexivity.
    + apply noise_line_below_start.
      destruct before; [contradiction|simpl; lia].
Qed.

End NoiseLines.

(** X17: a line that the filter drops and that is no start marker and no
    footer marker leaves no trace: the text with such a line, below its
    first line, is cleaned to what the text without the line is cleaned
    to. *)
Theorem noise_line_is_invisible :
  forall p x r : str,
    ~ In NL x ->
    start_marker x = false -> footer_marker x = false -> keep x = false ->
    clean_terraform_docs (p ++ NL :: x ++ NL :: r) =
      clean_terraform_docs (p ++ NL :: r) /\
    clean_terraform_docs (p ++ NL :: x) = clean_terraform_docs p.
Proof.
  intros p x r Hfree Hs Hf Hk.
  pose proof (split_not_nil NL p) as Hp.
  unfold clean_terraform_docs. rewrite !cleaned_lines_filter.
  rewrite !split_app_sep, (split_free NL x Hfree).
  split.
  - cbn [app]. now rewrite noise_line_kept_lines.
  - rewrite (noise_line_kept_lines (split NL p) [] x Hp Hs Hf Hk).
    now rewrite app_nil_r.
Qed.

Lemma noise_line_is_invisible_witness :
  clean_terraform_docs
    (lit "# azurerm_foo" ++ NL :: lit "Browse modules" ++ NL :: lit "body") =
    clean_terraform_docs (lit "# azurerm_foo" ++ NL :: lit "body") /\
  clean_terraform_docs (lit "# azurerm_foo" ++ NL :: lit "Browse modules") =
    clean_terraform_docs (lit "# azurerm_foo").
Proof.
  apply noise_line_is_invisible.
  - vm_compute. intuition discriminate.
  - vm_compute. reflexivity.
  - vm_compute. reflexivity.
  - vm_compute. reflexivity.
Defined.

(** ** The length in the error detail *)

Section Detail.

Lemma codes_injective (a b : String.string) : codes a = codes b -> a = b.
Proof.
  unfold codes. intros H.
  apply (f_equal (map Ascii.ascii_of_N)) in H.
  rewrite !map_map in H.
  rewrite !(map_ext _ (fun c => c) Ascii.ascii_N_embedding) in H.
  rewrite !map_id in H.
  rewrite <- (String.string_of_list_ascii_of_string a).
  rewrite <- (String.string_of_list_ascii_of_string b).
  now rewrite H.
Qed.

Lemma str_of_nat_injective (n n' : nat) :
  str_of_nat n = str_of_nat n' -> n = n'.
Proof.
  unfold str_of_nat. intros H. apply codes_injective in H.
  apply (f_equal DecimalString.NilEmpty.uint_of_string) in H.
  rewrite !DecimalString.NilEmpty.usu in H. injection H as H.
  rewrite <- (DecimalNat.Unsigned.of_to n), <- (DecimalNat.Unsigned.of_to n').
  now rewrite H.
Qed.

Lemma too_short_detail_parts (n : nat) :
  too_short_detail n =
    lit "Extracted content too short (" ++ str_of_nat n ++
    lit " chars). Page may not have loaded properly.".
Proof. unfold too_short_detail. reflexivity. Qed.

End Detail.

(** X18: the detail of the error for a short content tells the measured
    length: two lengths with the same detail are the same length. *)
Theorem too_short_detail_tells_length :
  forall n n' : nat, too_short_detail n = too_short_detail n' -> n = n'.
Proof.
  intros n n' H. rewrite !too_short_detail_parts in H.
  apply app_inv_head in H. apply app_inv_tail in H.
  now apply str_of_nat_injective.
Qed.

Lemma too_short_detail_tells_length_witness : 50 = 50.
Proof.
  apply too_short_detail_tells_length. reflexivity.
Defined.

(** ** The session around the crawl *)

(** A session entered and left without an exception is the crawl alone. *)
Lemma scrape_session_plain (c : crawl) (request : ScrapeRequest) :
  scrape_session {| enter := Completes; arun_call := Ran c;
                    leave := Completes |} request =
    (Answers (fst (scrape_url (fun _ _ => c) request)), [full_url request]).
Proof. reflexivity. Qed.

Example crawl_without_markdown :
  scrape_url arun_no_markdown request_path =
    (Returns (failure_response
                (lit "'NoneType' object has no attribute 'raw_markdown'")),
     [full_url request_path]).
Proof. reflexivity. Qed.

Example session_not_entered :
  scrape_session {| enter := Fails (lit "no browser");
                    arun_call := Ran (arun_letters 300 0 []);
                    leave := Completes |} request_path =
    (Answers (Returns (failure_response (lit "no browser"))), []).
Proof. reflexivity. Qed.

Example session_close_replaces_http_error :
  scrape_session {| enter := Completes;
                    arun_call := Ran (arun_timeout 0 []);
                    leave := Fails (lit "browser closed") |} request_path =
    (Answers (Returns (failure_response (lit "browser closed"))),
     [full_url request_path]).
Proof. reflexivity. Qed.

Example session_cancelled :
  scrape_session {| enter := Completes; arun_call := RunAborts;
                    leave := Completes |} request_path =
    (Propagates, [full_url request_path]).
Proof. reflexivity. Qed.


